(** * kreator: the level/category usability rule of the music knowledge API

    A shallow embedding of the rule engine of the backend server
    (LEVEL_ORDER, getUsableLevelsForNode, getRelativeCategory, the input
    normalizers, readStore/writeStore and the /api/nodes and /api/recipes
    handlers), followed by the properties proved about it.

    Conventions of the embedding:
    - a JavaScript string is a [string]; its characters are read as code
      units below 256 (Latin-1), which is where [trim] and [toLowerCase]
      are modelled;
    - [undefined] results of array indexing are [None];
    - the empty string is the "falsy" answer of the normalizers, as in the
      source. *)

From Stdlib Require Import ZArith NArith List Bool Ascii String Lia.
Import ListNotations.
Open Scope string_scope.

(** ** Strings *)

Module Str.

(** Code units that [String.prototype.trim] strips (white space and line
    terminators below 256): TAB, LF, VT, FF, CR, SP, NBSP. *)
Definition is_space (c : ascii) : bool :=
  let n := N_of_ascii c in
  (((9 <=? n) && (n <=? 13)) || (n =? 32) || (n =? 160))%N.

(** [toLowerCase] on one code unit: A-Z and the Latin-1 capitals. *)
Definition lower_char (c : ascii) : ascii :=
  let n := N_of_ascii c in
  if (((65 <=? n) && (n <=? 90))
      || ((192 <=? n) && (n <=? 214))
      || ((216 <=? n) && (n <=? 222)))%N
  then ascii_of_N (n + 32) else c.

Fixpoint toLowerCase (s : string) : string :=
  match s with
  | EmptyString => EmptyString
  | String c r => String (lower_char c) (toLowerCase r)
  end.

Fixpoint trimStart (s : string) : string :=
  match s with
  | EmptyString => EmptyString
  | String c r => if is_space c then trimStart r else s
  end.

Fixpoint trimEnd (s : string) : string :=
  match s with
  | EmptyString => EmptyString
  | String c r =>
      match trimEnd r with
      | EmptyString => if is_space c then EmptyString else String c EmptyString
      | t => String c t
      end
  end.

Definition trim (s : string) : string := trimEnd (trimStart s).

(** JavaScript truthiness of a string. *)
Definition truthy (s : string) : bool := negb (s =? "").

Fixpoint all_chars (p : ascii -> bool) (s : string) : bool :=
  match s with
  | EmptyString => true
  | String c r => p c && all_chars p r
  end.

(** [Set.prototype.has] / [Array.prototype.includes] on strings. *)
Definition mem (s : string) (l : list string) : bool :=
  existsb (String.eqb s) l.

End Str.

(** ** Levels and categories *)

Definition LEVEL_ORDER : list string :=
  ["album"; "single"; "segment"; "phrase"; "timbre"].
Definition LEVELS : list string :=
  ["album"; "single"; "segment"; "phrase"; "timbre"].
Definition CATEGORY : list string := ["form"; "material"].

(** [Array.prototype.indexOf]: the first index, or -1. *)
Fixpoint indexOf (x : string) (l : list string) : Z :=
  match l with
  | [] => -1
  | y :: r =>
      if (x =? y)%string then 0
      else let i := indexOf x r in if (i <? 0)%Z then -1 else (i + 1)%Z
  end%Z.

(** [l[i]] for an integer [i]: [None] is [undefined]. *)
Definition at_index (l : list string) (i : Z) : option string :=
  if (i <? 0)%Z then None else nth_error l (Z.to_nat i).

(** A knowledge unit ("node") as the store holds it. *)
Record node := mkNode {
  node_id : N;
  node_content : string;
  node_level : string;
  node_category : string
}.

(** [usableLevels.add(x)] on the insertion-ordered set. *)
Definition set_add (x : string) (s : list string) : list string :=
  if Str.mem x s then s else s ++ [x].

Definition getUsableLevelsForNode (n : node) : list string :=
  let levelIndex := indexOf (node_level n) LEVEL_ORDER in
  if (levelIndex =? -1)%Z then []
  else
    let usableLevels := [node_level n] in
    let usableLevels :=
      if (node_category n =? "material")%string then
        match at_index LEVEL_ORDER (levelIndex + 1) with
        | Some lowerLevel =>
            if Str.truthy lowerLevel then set_add lowerLevel usableLevels
            else usableLevels
        | None => usableLevels
        end
      else usableLevels in
    let usableLevels :=
      if (node_category n =? "form")%string then
        match at_index LEVEL_ORDER (levelIndex - 1) with
        | Some higherLevel =>
            if Str.truthy higherLevel then set_add higherLevel usableLevels
            else usableLevels
        | None => usableLevels
        end
      else usableLevels in
    usableLevels.

(** [targetLevel === x] where [x] may be [undefined]. *)
Definition same_level (targetLevel : string) (x : option string) : bool :=
  match x with
  | Some l => (targetLevel =? l)%string
  | None => false
  end.

Definition getRelativeCategory (n : node) (targetLevel : string) : string :=
  if (targetLevel =? node_level n)%string then node_category n
  else
    let levelIndex := indexOf (node_level n) LEVEL_ORDER in
    if (levelIndex =? -1)%Z then ""
    else if (node_category n =? "material")%string then
      let lowerLevel := at_index LEVEL_ORDER (levelIndex + 1) in
      if same_level targetLevel lowerLevel then "form" else ""
    else if (node_category n =? "form")%string then
      let higherLevel := at_index LEVEL_ORDER (levelIndex - 1) in
      if same_level targetLevel higherLevel then "material" else ""
    else "".

(** ** The rule as the specification words it

    The five ranks, coarsest first, with [parent] the next coarser rank and
    [child] the next finer one; [resolve] follows the four steps of the
    resolver's description. These definitions are the specification's side
    of the comparison with [getRelativeCategory]. *)

Module LevelScale.

Inductive rank := Album | Single | Segment | Phrase | Timbre.
Inductive category := Form | Material.

Definition rank_name (r : rank) : string :=
  match r with
  | Album => "album" | Single => "single" | Segment => "segment"
  | Phrase => "phrase" | Timbre => "timbre"
  end.

Definition category_name (c : category) : string :=
  match c with Form => "form" | Material => "material" end.

Definition index (r : rank) : nat :=
  match r with
  | Album => 0 | Single => 1 | Segment => 2 | Phrase => 3 | Timbre => 4
  end.

Definition parent (r : rank) : option rank :=
  match r with
  | Album => None | Single => Some Album | Segment => Some Single
  | Phrase => Some Segment | Timbre => Some Phrase
  end.

Definition child (r : rank) : option rank :=
  match r with
  | Album => Some Single | Single => Some Segment | Segment => Some Phrase
  | Phrase => Some Timbre | Timbre => None
  end.

Definition rank_eqb (a b : rank) : bool := Nat.eqb (index a) (index b).

Definition is_some_rank (o : option rank) (t : rank) : bool :=
  match o with Some r => rank_eqb r t | None => false end.

(** [None] is "Unusable". *)
Definition resolve (level : rank) (cat : category) (target : rank)
  : option category :=
  if rank_eqb target level then Some cat
  else if is_some_rank (parent level) target then
    match cat with Form => Some Material | Material => None end
  else if is_some_rank (child level) target then
    match cat with Material => Some Form | Form => None end
  else None.

(** How the code reports an answer: the category's name, or the empty
    string for "Unusable". *)
Definition render (o : option category) : string :=
  match o with Some c => category_name c | None => "" end.

Definition unit_of (id : N) (content : string) (r : rank) (c : category)
  : node :=
  mkNode id content (rank_name r) (category_name c).

End LevelScale.

(** ** JavaScript values reaching the normalizers *)

(** A number is either an integer-valued double or anything else
    (a fraction, NaN, an infinity), for which [Number.isInteger] is false. *)
Inductive number := NInt (z : Z) | NOther.

#[local] Set Warnings "-register-all".
Inductive jsval :=
| JUndef
| JNull
| JBool (b : bool)
| JNum (n : number)
| JStr (s : string)
| JArr (items : list jsval)
| JObj.

(** The nullish coalescing operator [a ?? b]. *)
Definition nullish_or (a b : jsval) : jsval :=
  match a with
  | JUndef | JNull => b
  | _ => a
  end.

(** An id after normalization: a non-negative integer, or the [Infinity]
    that [Number] gives for a digit string beyond the range of doubles. *)
Inductive idnum := Fin (n : N) | Inf.

Definition idnum_eqb (a b : idnum) : bool :=
  match a, b with
  | Fin x, Fin y => (x =? y)%N
  | Inf, Inf => true
  | _, _ => false
  end.

Module Num.

(** Round a non-negative integer to the nearest double (53 significant
    bits, ties to even); exact below 2^53. *)
Definition round53 (v : N) : N :=
  if (v <? 2 ^ 53)%N then v
  else
    let k := (N.log2 v - 52)%N in
    let q := (v / 2 ^ k)%N in
    let r := (v mod 2 ^ k)%N in
    let half := (2 ^ (k - 1))%N in
    let q' :=
      if (r <? half)%N then q
      else if (half <? r)%N then (q + 1)%N
      else if N.even q then q else (q + 1)%N in
    (q' * 2 ^ k)%N.

Definition digit_value (c : ascii) : N := (N_of_ascii c - 48)%N.

Definition is_digit (c : ascii) : bool :=
  let n := N_of_ascii c in ((48 <=? n) && (n <=? 57))%N.

(** The mathematical value of a string of decimal digits. *)
Fixpoint decimal_from (acc : N) (s : string) : N :=
  match s with
  | EmptyString => acc
  | String c r => decimal_from (acc * 10 + digit_value c)%N r
  end.

Definition decimal (s : string) : N := decimal_from 0 s.

(** [Number(text)] for a text of decimal digits: the nearest double, which
    is [Infinity] from 2^1024 on. *)
Definition Number_of_digits (text : string) : idnum :=
  let r := round53 (decimal text) in
  if (r <? 2 ^ 1024)%N then Fin r else Inf.

(** The regular expression [/^\d+$/]. *)
Definition all_digits (text : string) : bool :=
  Str.truthy text && Str.all_chars is_digit text.

End Num.

(** ** Normalizers *)

Definition toSafeString (value : jsval) : string :=
  match value with
  | JStr s => Str.trim s
  | _ => ""
  end.

Definition toSafeLower (value : jsval) : string :=
  Str.toLowerCase (toSafeString value).

Definition normalizeLevel (value : jsval) : string :=
  let level := toSafeLower value in
  if Str.mem level LEVELS then level else "".

Definition normalizeCategory (value : jsval) : string :=
  let category := toSafeLower value in
  if Str.mem category CATEGORY then category else "".

Definition normalizeNumericId (value : jsval) : option idnum :=
  match value with
  | JNum (NInt z) =>
      if (0 <=? z)%Z then Some (Fin (Z.to_N z))
      else
        let text := toSafeString value in
        if Num.all_digits text then Some (Num.Number_of_digits text) else None
  | _ =>
      let text := toSafeString value in
      if Num.all_digits text then Some (Num.Number_of_digits text) else None
  end.

Definition parseParamId (value : jsval) : option idnum :=
  match normalizeNumericId value with
  | None => None
  | Some parsed => Some parsed
  end.

(** [value.map(normalizeNumericId).filter(item => item !== null)]. *)
Fixpoint keep_ids (items : list jsval) : list idnum :=
  match items with
  | [] => []
  | item :: rest =>
      match normalizeNumericId item with
      | Some id => id :: keep_ids rest
      | None => keep_ids rest
      end
  end.

Definition normalizeKnowledgePoints (value : jsval) : list idnum :=
  match value with
  | JArr items => keep_ids items
  | _ => []
  end.

(** Request bodies: an absent field is [JUndef]. *)
Record node_input := mkNodeInput {
  in_content : jsval;
  in_level : jsval;
  in_category : jsval
}.

Record node_data := mkNodeData {
  nd_content : string;
  nd_level : string;
  nd_category : string
}.

Definition normalizeNode (input : node_input) : node_data :=
  mkNodeData (toSafeString (in_content input))
             (normalizeLevel (in_level input))
             (normalizeCategory (in_category input)).

Record recipe_input := mkRecipeInput {
  in_knowledgePoints : jsval;
  in_procedure : jsval;
  in_recipe_level : jsval;
  in_description : jsval
}.

Record recipe_data := mkRecipeData {
  rd_knowledgePoints : list idnum;
  rd_procedure : string;
  rd_level : string;
  rd_description : string
}.

Definition normalizeRecipe (input : recipe_input) : recipe_data :=
  mkRecipeData (normalizeKnowledgePoints (in_knowledgePoints input))
               (toSafeString (in_procedure input))
               (normalizeLevel (in_recipe_level input))
               (toSafeString (in_description input)).

(** A composition ("recipe") as the store holds it. *)
Record recipe := mkRecipe {
  recipe_id : N;
  recipe_knowledgePoints : list idnum;
  recipe_procedure : string;
  recipe_level : string;
  recipe_description : string
}.

(** [{ id, ...normalized }]. *)
Definition node_of (id : N) (d : node_data) : node :=
  mkNode id (nd_content d) (nd_level d) (nd_category d).

Definition recipe_of (id : N) (d : recipe_data) : recipe :=
  mkRecipe id (rd_knowledgePoints d) (rd_procedure d) (rd_level d)
           (rd_description d).

(** ** Validation helpers *)

(** [idSet.has(id)] for the set of the nodes' ids. *)
Definition has_id (id : idnum) (nodes : list node) : bool :=
  existsb (fun n => idnum_eqb id (Fin (node_id n))) nodes.

Definition areValidKnowledgeIds (ids : list idnum) (nodes : list node) : bool :=
  forallb (fun id => has_id id nodes) ids.

(** [new Map(nodes.map(node => [node.id, node])).get(id)]: a later entry
    with the same key replaces an earlier one. *)
Definition nodeMap_get (nodes : list node) (id : idnum) : option node :=
  fold_left
    (fun found n => if idnum_eqb id (Fin (node_id n)) then Some n else found)
    nodes None.

Definition findUnavailableKnowledgeIds
  (ids : list idnum) (nodes : list node) (recipeLevel : string) : list idnum :=
  filter
    (fun id =>
       match nodeMap_get nodes id with
       | None => false
       | Some n =>
           let usableLevels := getUsableLevelsForNode n in
           negb (Str.mem recipeLevel usableLevels)
       end)
    ids.

Definition max_id (ids : list N) : N := fold_right N.max 0%N ids.

(** [Math.max(...ids) + 1], an addition of doubles. *)
Definition nextId (ids : list N) : N :=
  match ids with
  | [] => 0%N
  | _ => Num.round53 (max_id ids + 1)
  end.

(** ** The data file

    The data file holds what [writeStore] writes: the two lists, every
    record with the fields and types the handlers give it. [None] is the
    state in which the file does not exist yet (ENOENT). In a stored list of
    knowledge points [Inf] stands for the [null] that JSON writes for
    [Infinity]. The branches of [readStore] for files of other shapes (ids
    that are strings, the legacy [music] list, unparsable text) are outside
    this model. *)

Record store := mkStore {
  nodes : list node;
  recipes : list recipe
}.

Definition file := option store.

(** Computations that read and write the data file. *)
Definition IO (A : Type) : Type := file -> A * file.

Definition ret {A} (a : A) : IO A := fun f => (a, f).

Definition bind {A B} (m : IO A) (k : A -> IO B) : IO B :=
  fun f => let (a, f') := m f in k a f'.

Notation "x <- m ;; k" := (bind m (fun x => k))
  (at level 61, m at next level, right associativity).

Definition run {A} (m : IO A) (f : file) : A := fst (m f).
Definition exec {A} (m : IO A) (f : file) : file := snd (m f).

Definition mem_id (id : N) (used : list N) : bool := existsb (N.eqb id) used.

(** [id = 0; while (used.has(id)) id += 1]: the loop makes at most
    [length used] steps, which is the fuel given to it. *)
Fixpoint count_up (fuel : nat) (used : list N) (id : N) : N :=
  match fuel with
  | O => id
  | S fuel' => if mem_id id used then count_up fuel' used (id + 1) else id
  end.

Definition first_unused (used : list N) : N :=
  count_up (List.length used) used 0.

(** The id a record keeps or gets: its own when it is free, else the first
    unused one. (In a written file [existingNumericId] is never [null].) *)
Definition assign_id (used : list N) (existingNumericId : N) : N :=
  if mem_id existingNumericId used then first_unused used
  else existingNumericId.

Definition or_else (a b : string) : string :=
  if Str.truthy a then a else b.

Definition prepare_node (n : node) : option node :=
  let normalized :=
    normalizeNode (mkNodeInput (JStr (node_content n)) (JStr (node_level n))
                               (JStr (node_category n))) in
  let fallbackCategory :=
    or_else (normalizeCategory (JStr (node_category n))) "form" in
  if negb (Str.truthy (nd_content normalized))
     || negb (Str.truthy (nd_level normalized))
  then None
  else Some (mkNode (node_id n) (nd_content normalized) (nd_level normalized)
                    (or_else (nd_category normalized) fallbackCategory)).

Fixpoint filter_some {A B} (f : A -> option B) (l : list A) : list B :=
  match l with
  | [] => []
  | a :: r =>
      match f a with
      | Some b => b :: filter_some f r
      | None => filter_some f r
      end
  end.

Fixpoint number_nodes (used : list N) (prepared : list node) : list node :=
  match prepared with
  | [] => []
  | n :: rest =>
      let id := assign_id used (node_id n) in
      mkNode id (node_content n) (node_level n) (node_category n)
        :: number_nodes (id :: used) rest
  end.

(** A stored knowledge point as [JSON.parse] returns it. *)
Definition parsed_id (id : idnum) : jsval :=
  match id with
  | Fin n => JNum (NInt (Z.of_N n))
  | Inf => JNull
  end.

(** The stored knowledge points after conversion. A value that is not a
    numeric id is looked up in [nodeIdMap] under [String(value ?? "")];
    for the [null] of a written file that key is the empty string, which is
    the key of no node there, so the value is dropped. *)
Definition convert_knowledgePoints (stored : list idnum) : list idnum :=
  filter_some (fun value => normalizeNumericId (parsed_id value)) stored.

Definition prepare_recipe (nodes : list node) (r : recipe) : option recipe :=
  let normalized :=
    normalizeRecipe
      (mkRecipeInput (JArr (map parsed_id (recipe_knowledgePoints r)))
                     (JStr (recipe_procedure r)) (JStr (recipe_level r))
                     (JStr (recipe_description r))) in
  let convertedKnowledgePoints :=
    convert_knowledgePoints (recipe_knowledgePoints r) in
  if negb (Str.truthy (rd_level normalized))
     || negb (Str.truthy (rd_description normalized))
     || negb (Str.truthy (rd_procedure normalized))
     || (List.length convertedKnowledgePoints =? 0)%nat
  then None
  else if negb (areValidKnowledgeIds convertedKnowledgePoints nodes) then None
  else Some (mkRecipe (recipe_id r) convertedKnowledgePoints
                      (rd_procedure normalized) (rd_level normalized)
                      (rd_description normalized)).

Fixpoint number_recipes (used : list N) (prepared : list recipe)
  : list recipe :=
  match prepared with
  | [] => []
  | r :: rest =>
      let id := assign_id used (recipe_id r) in
      mkRecipe id (recipe_knowledgePoints r) (recipe_procedure r)
               (recipe_level r) (recipe_description r)
        :: number_recipes (id :: used) rest
  end.

(** What [readStore] makes of the parsed content of the file. *)
Definition load (parsed : store) : store :=
  let nodes := number_nodes [] (filter_some prepare_node (nodes parsed)) in
  let recipes :=
    number_recipes [] (filter_some (prepare_recipe nodes) (recipes parsed)) in
  mkStore nodes recipes.

Definition writeStore (s : store) : IO unit :=
  fun _ => (tt, Some s).

Definition readStore : IO store :=
  fun f =>
    match f with
    | Some parsed => (load parsed, f)
    | None =>
        (_ <- writeStore (mkStore [] []) ;; ret (mkStore [] [])) f
    end.

Definition readNodeList : IO (list node) :=
  s <- readStore ;; ret (nodes s).

Definition writeNodeList (l : list node) : IO unit :=
  s <- readStore ;; writeStore (mkStore l (recipes s)).

Definition readRecipeList : IO (list recipe) :=
  s <- readStore ;; ret (recipes s).

Definition writeRecipeList (l : list recipe) : IO unit :=
  s <- readStore ;; writeStore (mkStore (nodes s) l).

(** ** Responses *)

(** The JSON body of a response. The two messages built from template
    literals are kept with the values put into them. *)
Inductive body :=
| Message (text : string)
| NodeNotUsable (id : idnum) (targetLevel : string)
    (* `node ${id} is not usable in level ${targetLevel}` *)
| PointsNotUsable (level : string) (unavailableIds : list idnum)
    (* `knowledgePoints not usable in level ${level}: ${ids.join(",")}` *)
| NodeJson (n : node)
| RecipeJson (r : recipe)
| RelativeJson (id : N) (content sourceLevel sourceCategory
                targetLevel relativeCategory : string)
| NoBody.

Record response := mkResponse {
  status : N;
  payload : body
}.

Definition bad_id : response :=
  mkResponse 400 (Message "id must be a non-negative integer").
Definition not_found : response :=
  mkResponse 404 (Message "Record not found").
Definition node_fields_required : response :=
  mkResponse 400
    (Message "content, level, category are required; category must be form or material").
Definition recipe_fields_required : response :=
  mkResponse 400
    (Message "knowledgePoints[], procedure, level, description are required").
Definition must_exist : response :=
  mkResponse 400 (Message "knowledgePoints must be existing node ids").
Definition server_error (text : string) : response :=
  mkResponse 500 (Message text).
Definition level_required : response :=
  mkResponse 400
    (Message "query level is required and must be one of album/single/segment/phrase/timbre").

(** ** Array helpers *)

Fixpoint findIndex {A} (p : A -> bool) (l : list A) : option nat :=
  match l with
  | [] => None
  | a :: r =>
      if p a then Some O
      else match findIndex p r with
           | Some i => Some (S i)
           | None => None
           end
  end.

(** [l[i] = x] for an index inside the array. *)
Fixpoint set_at {A} (l : list A) (i : nat) (x : A) : list A :=
  match l, i with
  | [], _ => []
  | _ :: r, O => x :: r
  | a :: r, S j => a :: set_at r j x
  end.

Definition is_node (id : idnum) (n : node) : bool :=
  idnum_eqb (Fin (node_id n)) id.
Definition is_recipe (id : idnum) (r : recipe) : bool :=
  idnum_eqb (Fin (recipe_id r)) id.

(** An id held in memory, as a value. *)
Definition id_value (id : idnum) : jsval :=
  match id with
  | Fin n => JNum (NInt (Z.of_N n))
  | Inf => JNum NOther
  end.

(** The object a PATCH handler normalizes: each field of the request, or
    the stored one when the request's is [null] or [undefined]. *)
Definition node_patch (req : node_input) (current : node) : node_input :=
  mkNodeInput
    (nullish_or (in_content req) (JStr (node_content current)))
    (nullish_or (in_level req) (JStr (node_level current)))
    (nullish_or (in_category req) (JStr (node_category current))).

Definition recipe_patch (req : recipe_input) (current : recipe)
  : recipe_input :=
  mkRecipeInput
    (nullish_or (in_knowledgePoints req)
                (JArr (map id_value (recipe_knowledgePoints current))))
    (nullish_or (in_procedure req) (JStr (recipe_procedure current)))
    (nullish_or (in_recipe_level req) (JStr (recipe_level current)))
    (nullish_or (in_description req) (JStr (recipe_description current))).

(** ** Handlers of /api/nodes *)

(** GET /api/nodes/:id/relative?level= *)
Definition get_node_relative (param : string) (query_level : jsval)
  : IO response :=
  match parseParamId (JStr param) with
  | None => ret bad_id
  | Some id =>
      let targetLevel := normalizeLevel query_level in
      if negb (Str.truthy targetLevel) then ret level_required
      else
        list <- readNodeList ;;
        match find (is_node id) list with
        | None => ret not_found
        | Some item =>
            let relativeCategory := getRelativeCategory item targetLevel in
            if negb (Str.truthy relativeCategory) then
              ret (mkResponse 400 (NodeNotUsable id targetLevel))
            else
              ret (mkResponse 200
                     (RelativeJson (node_id item) (node_content item)
                        (node_level item) (node_category item)
                        targetLevel relativeCategory))
        end
  end.

(** POST /api/nodes *)
Definition post_nodes (req : node_input) : IO response :=
  let normalized := normalizeNode req in
  if negb (Str.truthy (nd_content normalized))
     || negb (Str.truthy (nd_level normalized))
     || negb (Str.truthy (nd_category normalized))
  then ret node_fields_required
  else
    list <- readNodeList ;;
    let record := node_of (nextId (map node_id list)) normalized in
    let list := record :: list in
    _ <- writeNodeList list ;;
    ret (mkResponse 201 (NodeJson record)).

(** PATCH /api/nodes/:id *)
Definition patch_nodes (param : string) (req : node_input) : IO response :=
  match parseParamId (JStr param) with
  | None => ret bad_id
  | Some id =>
      list <- readNodeList ;;
      match findIndex (is_node id) list with
      | None => ret not_found
      | Some index =>
          match nth_error list index with
          | None => ret (server_error "Failed to update node")
          | Some current =>
              let normalized := normalizeNode (node_patch req current) in
              if negb (Str.truthy (nd_content normalized))
                 || negb (Str.truthy (nd_level normalized))
                 || negb (Str.truthy (nd_category normalized))
              then ret node_fields_required
              else
                let updated := node_of (node_id current) normalized in
                let list := set_at list index updated in
                _ <- writeNodeList list ;;
                ret (mkResponse 200 (NodeJson updated))
          end
      end
  end.

(** DELETE /api/nodes/:id *)
Definition delete_nodes (param : string) : IO response :=
  match parseParamId (JStr param) with
  | None => ret bad_id
  | Some id =>
      list <- readNodeList ;;
      let targetId := id in
      if negb (existsb (is_node targetId) list) then ret not_found
      else
        let next := filter (fun entry => negb (is_node targetId entry)) list in
        _ <- writeNodeList next ;;
        ret (mkResponse 204 NoBody)
  end.

(** ** Handlers of /api/recipes *)

(** GET /api/recipes/:id *)
Definition get_recipe (param : string) : IO response :=
  match parseParamId (JStr param) with
  | None => ret bad_id
  | Some id =>
      list <- readRecipeList ;;
      match find (is_recipe id) list with
      | None => ret not_found
      | Some item => ret (mkResponse 200 (RecipeJson item))
      end
  end.

Definition missing_fields (normalized : recipe_data) : bool :=
  (List.length (rd_knowledgePoints normalized) =? 0)%nat
  || negb (Str.truthy (rd_procedure normalized))
  || negb (Str.truthy (rd_level normalized))
  || negb (Str.truthy (rd_description normalized)).

(** POST /api/recipes *)
Definition post_recipes (req : recipe_input) : IO response :=
  nodes <- readNodeList ;;
  let normalized := normalizeRecipe req in
  if missing_fields normalized then ret recipe_fields_required
  else if negb (areValidKnowledgeIds (rd_knowledgePoints normalized) nodes)
  then ret must_exist
  else
    let unavailableIds :=
      findUnavailableKnowledgeIds (rd_knowledgePoints normalized) nodes
                                  (rd_level normalized) in
    if (0 <? List.length unavailableIds)%nat then
      ret (mkResponse 400 (PointsNotUsable (rd_level normalized) unavailableIds))
    else
      list <- readRecipeList ;;
      let record := recipe_of (nextId (map recipe_id list)) normalized in
      let list := record :: list in
      _ <- writeRecipeList list ;;
      ret (mkResponse 201 (RecipeJson record)).

(** PATCH /api/recipes/:id *)
Definition patch_recipes (param : string) (req : recipe_input) : IO response :=
  match parseParamId (JStr param) with
  | None => ret bad_id
  | Some id =>
      nodes <- readNodeList ;;
      list <- readRecipeList ;;
      match findIndex (is_recipe id) list with
      | None => ret not_found
      | Some index =>
          match nth_error list index with
          | None => ret (server_error "Failed to update recipe")
          | Some current =>
              let normalized := normalizeRecipe (recipe_patch req current) in
              if missing_fields normalized then ret recipe_fields_required
              else if negb (areValidKnowledgeIds
                              (rd_knowledgePoints normalized) nodes)
              then ret must_exist
              else
                let unavailableIds :=
                  findUnavailableKnowledgeIds
                    (rd_knowledgePoints normalized) nodes
                    (rd_level normalized) in
                if (0 <? List.length unavailableIds)%nat then
                  ret (mkResponse 400
                         (PointsNotUsable (rd_level normalized) unavailableIds))
                else
                  let updated := recipe_of (recipe_id current) normalized in
                  let list := set_at list index updated in
                  _ <- writeRecipeList list ;;
                  ret (mkResponse 200 (RecipeJson updated))
          end
      end
  end.

(** ** Requests and runs *)

(** The operations on knowledge units and compositions. *)
Inductive request :=
| CreateNode (req : node_input)
| UpdateNode (param : string) (req : node_input)
| DeleteNode (param : string)
| CreateRecipe (req : recipe_input)
| UpdateRecipe (param : string) (req : recipe_input).

Definition handle (r : request) : IO response :=
  match r with
  | CreateNode req => post_nodes req
  | UpdateNode param req => patch_nodes param req
  | DeleteNode param => delete_nodes param
  | CreateRecipe req => post_recipes req
  | UpdateRecipe param req => patch_recipes param req
  end.

(** The data file after a sequence of requests. *)
Fixpoint serve (rs : list request) (f : file) : file :=
  match rs with
  | [] => f
  | r :: rest => serve rest (exec (handle r) f)
  end.

(** ** The reference invariant of a stored composition *)

(** A knowledge point of a composition at [level] is in order in [units]
    when a unit has that id and is usable at [level] by
    [getRelativeCategory]. *)
Definition usable_point (units : list node) (level : string) (id : idnum)
  : bool :=
  existsb
    (fun n => is_node id n && Str.truthy (getRelativeCategory n level))
    units.

Definition recipe_in_order (units : list node) (r : recipe) : bool :=
  forallb (usable_point units (recipe_level r)) (recipe_knowledgePoints r).

Definition store_in_order (s : store) : bool :=
  forallb (recipe_in_order (nodes s)) (recipes s).

(** The compositions held in the data file, and what a reader gets. *)
Definition file_in_order (f : file) : bool :=
  match f with
  | Some s => store_in_order s
  | None => true
  end.

Definition view_in_order (f : file) : bool :=
  store_in_order (run readStore f).

(** The outcome of a create or update as the caller tells it: accepted, or
    rejected with the body of the response. *)
Inductive verdict := Accepted | Rejected (why : body).

Definition verdict_of (r : response) : verdict :=
  if ((status r =? 200) || (status r =? 201))%N then Accepted
  else Rejected (payload r).

(** The responses to a failed validation of a composition. *)
Definition validation_failure (r : response) : Prop :=
  r = recipe_fields_required \/ r = must_exist
  \/ exists level ids, r = mkResponse 400 (PointsNotUsable level ids).

(** Strings made of white space only. *)
Definition blank (s : string) : bool := Str.all_chars Str.is_space s.

(** ** Predicates and sample data used in the statements *)

(** A unit whose level and category are in the enums. *)
Definition valid_unit (n : node) : Prop :=
  In (node_level n) LEVEL_ORDER /\ In (node_category n) CATEGORY.

(** A node as [readStore] returns it: trimmed non-empty content, level and
    category in the enums. *)
Definition normal_node (n : node) : Prop :=
  Str.trim (node_content n) = node_content n
  /\ Str.truthy (node_content n) = true
  /\ In (node_level n) LEVELS
  /\ In (node_category n) CATEGORY.

(** A string that does not begin with white space. *)
Definition starts_clean (s : string) : Prop :=
  match s with
  | EmptyString => True
  | String c _ => Str.is_space c = false
  end.

Definition name_of (o : option LevelScale.rank) : option string :=
  option_map LevelScale.rank_name o.

(** The three checks that POST and PATCH /api/recipes both make on the
    normalized request, in their order; [None] when all pass. The handlers
    above carry their own copies, as the source does; the lemmas
    [post_recipes_check] and [patch_recipes_check] relate them to this one. *)
Definition check (units : list node) (d : recipe_data) : option response :=
  if missing_fields d then Some recipe_fields_required
  else if negb (areValidKnowledgeIds (rd_knowledgePoints d) units)
  then Some must_exist
  else
    let unavailableIds :=
      findUnavailableKnowledgeIds (rd_knowledgePoints d) units (rd_level d) in
    if (0 <? List.length unavailableIds)%nat
    then Some (mkResponse 400 (PointsNotUsable (rd_level d) unavailableIds))
    else None.

Definition recipe_request (r : request) : Prop :=
  match r with
  | CreateRecipe _ | UpdateRecipe _ _ => True
  | _ => False
  end.

Module Sample.

(** A form unit at level single, which gets id 0 in an empty store. *)
Definition single_form : node_input :=
  mkNodeInput (JStr "the chorus answers the verse") (JStr "single")
              (JStr "form").

(** A composition one level up, at album, citing unit 0. *)
Definition album_recipe : recipe_input :=
  mkRecipeInput (JArr [JNum (NInt 0)]) (JStr "order the singles")
                (JStr "album") (JStr "an arc of answers").

(** The same unit turned into material. *)
Definition to_material : node_input :=
  mkNodeInput JUndef JUndef (JStr "material").

(** A change of the level alone. *)
Definition to_segment : recipe_input :=
  mkRecipeInput JUndef JUndef (JStr "segment") JUndef.

Definition one_unit : file := serve [CreateNode single_form] None.

Definition one_recipe : file :=
  serve [CreateNode single_form; CreateRecipe album_recipe] None.

(** A store holding unit 5 only. *)
Definition unit_five : file :=
  Some (mkStore [mkNode 5 "a held fifth" "single" "form"] []).

Definition citing (ids : list jsval) : recipe_input :=
  mkRecipeInput (JArr ids) (JStr "layer the takes") (JStr "single")
                (JStr "a doubled line").

End Sample.

(** ** Further handlers and helpers of the server *)

(** GET /api/nodes/:id *)
Definition get_node (param : string) : IO response :=
  match parseParamId (JStr param) with
  | None => ret bad_id
  | Some id =>
      list <- readNodeList ;;
      match find (is_node id) list with
      | None => ret not_found
      | Some item => ret (mkResponse 200 (NodeJson item))
      end
  end.

(** DELETE /api/recipes/:id *)
Definition delete_recipes (param : string) : IO response :=
  match parseParamId (JStr param) with
  | None => ret bad_id
  | Some id =>
      list <- readRecipeList ;;
      let targetId := id in
      if negb (existsb (is_recipe targetId) list) then ret not_found
      else
        let next :=
          filter (fun entry => negb (is_recipe targetId entry)) list in
        _ <- writeRecipeList next ;;
        ret (mkResponse 204 NoBody)
  end.

(** [haystack.includes(keyword)]. *)
Fixpoint includes (haystack keyword : string) : bool :=
  if String.prefix keyword haystack then true
  else match haystack with
       | EmptyString => false
       | String _ rest => includes rest keyword
       end.

Definition nodeMatchesFilters (n : node) (level keyword : string) : bool :=
  let matchesLevel :=
    if Str.truthy level then (node_level n =? level)%string else true in
  let matchesCategory := true in
  let haystack := Str.toLowerCase (node_content n) in
  let matchesKeyword :=
    if Str.truthy keyword then includes haystack keyword else true in
  matchesLevel && matchesCategory && matchesKeyword.

(** GET /api/nodes?level=&q= : the array sent with [res.json]. *)
Definition get_nodes (query_level query_q : jsval) : IO (list node) :=
  let level := normalizeLevel query_level in
  let keyword := toSafeLower query_q in
  list <- readNodeList ;;
  ret (filter (fun n => nodeMatchesFilters n level keyword) list).

(** [text.replace(/\s+/g, "")]. *)
Fixpoint remove_spaces (s : string) : string :=
  match s with
  | EmptyString => EmptyString
  | String c r =>
      if Str.is_space c then remove_spaces r else String c (remove_spaces r)
  end.

(** [s.slice(0, n)] for a natural number [n]. *)
Fixpoint slice_to (n : nat) (s : string) : string :=
  match n, s with
  | O, _ => EmptyString
  | _, EmptyString => EmptyString
  | S m, String c r => String c (slice_to m r)
  end.

(** [toGist(text, maxLength)]; the callers leave [maxLength] at 20. *)
Definition toGist (text : jsval) (maxLength : nat) : string :=
  let normalized := remove_spaces (toSafeString text) in
  if negb (Str.truthy normalized) then ""
  else if (maxLength <? String.length normalized)%nat
       then slice_to maxLength normalized
       else normalized.

Definition is_slash (c : ascii) : bool := (N_of_ascii c =? 47)%N.

(** [text.replace(/\/+$/, "")]: the slashes at the end are taken off. *)
Fixpoint strip_slashes (s : string) : string :=
  match s with
  | EmptyString => EmptyString
  | String c r =>
      match strip_slashes r with
      | EmptyString => if is_slash c then EmptyString else String c EmptyString
      | t => String c t
      end
  end.

Definition LIBRARY_API_PREFIX_DEFAULT : string := "/library-api".

Definition normalizeApiPrefix (value : jsval) : string :=
  let text := or_else (toSafeString value) LIBRARY_API_PREFIX_DEFAULT in
  let normalized :=
    if String.prefix "/" text then text else "/" ++ text in
  strip_slashes normalized.

(** [PORT] is read from the environment when the server starts; it is a
    parameter here, as the text put into the default address. *)
Definition normalizeBaseUrl (PORT : string) (value : jsval) : string :=
  let text := or_else (toSafeString value) ("http://localhost:" ++ PORT) in
  strip_slashes text.

(** [recipe.knowledgePoints.join(" ")]; the text that JavaScript gives a
    number ([String(id)]) is the parameter [id_text]. *)
Definition join_ids (id_text : idnum -> string) (ids : list idnum) : string :=
  String.concat " " (map id_text ids).

Definition recipeMatchesFilters (id_text : idnum -> string) (r : recipe)
           (level keyword : string) : bool :=
  let matchesLevel :=
    if Str.truthy level then (recipe_level r =? level)%string else true in
  let haystack :=
    Str.toLowerCase
      (recipe_description r ++ " " ++ recipe_procedure r ++ " "
       ++ join_ids id_text (recipe_knowledgePoints r)) in
  let matchesKeyword :=
    if Str.truthy keyword then includes haystack keyword else true in
  matchesLevel && matchesKeyword.

(** GET /api/recipes?level=&q= : the array sent with [res.json]. *)
Definition get_recipes (id_text : idnum -> string)
           (query_level query_q : jsval) : IO (list recipe) :=
  let level := normalizeLevel query_level in
  let keyword := toSafeLower query_q in
  list <- readRecipeList ;;
  ret (filter (fun r => recipeMatchesFilters id_text r level keyword) list).

(** A composition as [readStore] returns it, against the units read with
    it: trimmed non-empty procedure and description, a level of the enum, a
    non-empty list of ids that are all ids of units. *)
Definition normal_recipe (units : list node) (r : recipe) : Prop :=
  Str.trim (recipe_procedure r) = recipe_procedure r
  /\ Str.truthy (recipe_procedure r) = true
  /\ In (recipe_level r) LEVELS
  /\ Str.trim (recipe_description r) = recipe_description r
  /\ Str.truthy (recipe_description r) = true
  /\ recipe_knowledgePoints r <> []
  /\ areValidKnowledgeIds (recipe_knowledgePoints r) units = true.

Module More.


(** A new procedure for a composition, the rest left as it is. *)
Definition new_procedure : recipe_input :=
  mkRecipeInput JUndef (JStr " open with the single ") JNull JUndef.

(** A unit whose level is not a level. *)
Definition stray : node := mkNode 2 "a loose idea" "movement" "form".

Definition rejected_unit : node_input :=
  mkNodeInput (JStr "   ") (JStr "single") (JStr "form").

End More.

(** * Properties *)

(** ** The single-hop rule *)

Section SingleHop.

Import LevelScale.

Lemma valid_unit_cases (n : node) :
  valid_unit n ->
  exists r c, node_level n = rank_name r /\ node_category n = category_name c.
Proof.
  intros [Hl Hc]. unfold LEVEL_ORDER, CATEGORY in *. cbn in Hl, Hc.
  assert (exists r, node_level n = rank_name r) as [r Hr].
  { destruct Hl as [E|[E|[E|[E|[E|[]]]]]];
      [exists Album | exists Single | exists Segment
       | exists Phrase | exists Timbre]; cbn; congruence. }
  assert (exists c, node_category n = category_name c) as [c Hcn].
  { destruct Hc as [E|[E|[]]]; [exists Form | exists Material];
      cbn; congruence. }
  eauto.
Qed.

Lemma usable_levels_of_unit id content r c :
  getUsableLevelsForNode (unit_of id content r c)
  = rank_name r ::
    match name_of (match c with Material => child r | Form => parent r end)
    with Some l => [l] | None => [] end.
Proof. destruct r, c; reflexivity. Qed.

Lemma relative_category_of_unit id content r c targetLevel :
  getRelativeCategory (unit_of id content r c) targetLevel
  = if (targetLevel =? rank_name r)%string then category_name c
    else match c with
         | Material =>
             if same_level targetLevel (name_of (child r)) then "form" else ""
         | Form =>
             if same_level targetLevel (name_of (parent r)) then "material"
             else ""
         end.
Proof.
  unfold getRelativeCategory, unit_of; cbn [node_level node_category].
  destruct (targetLevel =? rank_name r)%string; [reflexivity|].
  destruct r, c; reflexivity.
Qed.

(** The list of the validator and the answer of the resolver, compared as
    the handlers use them: membership against truthiness. *)
Lemma usable_levels_agree (n : node) (targetLevel : string) :
  valid_unit n ->
  Str.mem targetLevel (getUsableLevelsForNode n)
  = Str.truthy (getRelativeCategory n targetLevel).
Proof.
  intros H. destruct (valid_unit_cases n H) as (r & c & Hr & Hc).
  destruct n as [i ct lv cat]; cbn in Hr, Hc; subst.
  change (mkNode i ct (rank_name r) (category_name c))
    with (unit_of i ct r c).
  rewrite usable_levels_of_unit, relative_category_of_unit.
  unfold Str.mem. cbn [existsb].
  destruct (targetLevel =? rank_name r)%string.
  - now destruct c.
  - destruct c; cbn [orb];
      [destruct (parent r) | destruct (child r)]; cbn;
      try destruct (targetLevel =? rank_name _)%string; reflexivity.
Qed.

Lemma render_empty (o : option category) : render o = "" <-> o = None.
Proof. destruct o as [[]|]; cbn; split; congruence. Qed.

Lemma relative_category_by_rank id content r c t :
  getRelativeCategory (unit_of id content r c) (rank_name t)
  = render (resolve r c t).
Proof. destruct r, c, t; reflexivity. Qed.

(** C1. For a unit at any of the five ranks, with category form or
    material, and any target rank, [getRelativeCategory] answers as the
    four-step rule does: the unit's own category at its own level,
    "material" for a form unit seen from the next coarser rank, "form" for a
    material unit seen from the next finer rank, and the empty answer
    ("Unusable") in every other case; the empty answer is given exactly when
    the rule says Unusable. *)
Theorem getRelativeCategory_single_hop :
  forall (id : N) (content : string) (r : rank) (c : category) (t : rank),
    getRelativeCategory (unit_of id content r c) (rank_name t)
    = render (resolve r c t)
    /\ (getRelativeCategory (unit_of id content r c) (rank_name t) = ""
        <-> resolve r c t = None).
Proof.
  intros id content r c t.
  rewrite relative_category_by_rank.
  split; [reflexivity | apply render_empty].
Qed.

(** C9. For a node whose level is one of the five ranks and whose category
    is form or material, a target level is in [getUsableLevelsForNode] of
    the node if and only if [getRelativeCategory] of the node at that level
    is not empty. It holds for every string given as target level. *)
Theorem usable_levels_iff_relative_category :
  forall (n : node) (targetLevel : string),
    In (node_level n) LEVEL_ORDER ->
    In (node_category n) CATEGORY ->
    (In targetLevel (getUsableLevelsForNode n)
     <-> getRelativeCategory n targetLevel <> "").
Proof.
  intros n T Hl Hc.
  pose proof (usable_levels_agree n T (conj Hl Hc)) as E.
  unfold Str.mem, Str.truthy in E.
  split.
  - intros Hin Hempty.
    assert (existsb (String.eqb T) (getUsableLevelsForNode n) = true) as Hx.
    { apply existsb_exists. exists T.
      split; [assumption | apply String.eqb_refl]. }
    rewrite E, Hempty in Hx. discriminate.
  - intros Hne.
    assert (existsb (String.eqb T) (getUsableLevelsForNode n) = true) as Hx.
    { rewrite E. destruct (String.eqb_spec (getRelativeCategory n T) "");
        [contradiction | reflexivity]. }
    apply existsb_exists in Hx. destruct Hx as (x & Hin & Hx).
    apply String.eqb_eq in Hx. now subst.
Qed.

Lemma usable_levels_iff_relative_category_witness :
  In "segment" (getUsableLevelsForNode (mkNode 3 "a falling third" "phrase" "form"))
  <-> getRelativeCategory (mkNode 3 "a falling third" "phrase" "form") "segment"
      <> "".
Proof.
  apply usable_levels_iff_relative_category; simpl; auto 6.
Defined.

End SingleHop.

(** ** Trimming and lower-casing *)

Section Trim.

Import Str.

Lemma is_space_lower_char (c : ascii) : is_space (lower_char c) = is_space c.
Proof. destruct c as [[] [] [] [] [] [] [] []]; reflexivity. Qed.

Lemma trimStart_blank (pre s : string) :
  blank pre = true -> trimStart (pre ++ s) = trimStart s.
Proof.
  induction pre as [|c pre IH]; cbn; [reflexivity|].
  intros H. apply andb_true_iff in H as [Hc Hp]. rewrite Hc. auto.
Qed.

Lemma trimEnd_all_blank (post : string) :
  blank post = true -> trimEnd post = "".
Proof.
  induction post as [|c post IH]; cbn; [reflexivity|].
  intros H. apply andb_true_iff in H as [Hc Hp]. rewrite (IH Hp), Hc.
  reflexivity.
Qed.

Lemma trimEnd_blank (s post : string) :
  blank post = true -> trimEnd (s ++ post) = trimEnd s.
Proof.
  intros H. induction s as [|c s IH]; cbn.
  - now apply trimEnd_all_blank.
  - now rewrite IH.
Qed.

Lemma trimStart_app (s post : string) :
  trimStart (s ++ post)
  = if blank s then trimStart post else trimStart s ++ post.
Proof.
  induction s as [|c s IH]; cbn; [reflexivity|].
  destruct (is_space c); cbn; [exact IH | reflexivity].
Qed.

Lemma trimStart_all_blank (s : string) : blank s = true -> trimStart s = "".
Proof.
  induction s as [|c s IH]; cbn; [reflexivity|].
  intros H. apply andb_true_iff in H as [Hc Hp]. rewrite Hc. auto.
Qed.

Lemma trim_padding (pre s post : string) :
  blank pre = true -> blank post = true ->
  trim (pre ++ s ++ post) = trim s.
Proof.
  intros Hpre Hpost. unfold trim.
  rewrite (trimStart_blank _ _ Hpre), trimStart_app.
  destruct (blank s) eqn:Hs.
  - rewrite (trimStart_all_blank _ Hpost), (trimStart_all_blank _ Hs).
    reflexivity.
  - now apply trimEnd_blank.
Qed.

Lemma trimStart_lower (s : string) :
  trimStart (toLowerCase s) = toLowerCase (trimStart s).
Proof.
  induction s as [|c s IH]; cbn; [reflexivity|].
  rewrite is_space_lower_char. destruct (is_space c); [exact IH | reflexivity].
Qed.

Lemma trimEnd_lower (s : string) :
  trimEnd (toLowerCase s) = toLowerCase (trimEnd s).
Proof.
  induction s as [|c s IH]; cbn; [reflexivity|].
  rewrite IH, is_space_lower_char.
  destruct (trimEnd s); cbn; [destruct (is_space c)|]; reflexivity.
Qed.

Lemma trim_lower (s : string) : trim (toLowerCase s) = toLowerCase (trim s).
Proof. unfold trim. now rewrite trimStart_lower, trimEnd_lower. Qed.

Lemma trimStart_clean (s : string) : starts_clean (trimStart s).
Proof.
  induction s as [|c s IH]; cbn; [exact I|].
  destruct (is_space c) eqn:E; [exact IH | exact E].
Qed.

Lemma trimStart_of_clean (s : string) : starts_clean s -> trimStart s = s.
Proof. destruct s; cbn; [reflexivity|]. now intros ->. Qed.

Lemma trimEnd_clean (s : string) : starts_clean s -> starts_clean (trimEnd s).
Proof.
  destruct s as [|c s]; cbn; [trivial|]. intros Hc.
  destruct (trimEnd s); [rewrite Hc|]; exact Hc.
Qed.

Lemma trimEnd_idempotent (s : string) : trimEnd (trimEnd s) = trimEnd s.
Proof.
  induction s as [|c s IH]; cbn; [reflexivity|].
  destruct (trimEnd s) as [|d t] eqn:E.
  - destruct (is_space c) eqn:Hc; cbn; [reflexivity | now rewrite Hc].
  - cbn [trimEnd] in *. rewrite IH. reflexivity.
Qed.

Lemma trim_idempotent (s : string) : trim (trim s) = trim s.
Proof.
  unfold trim.
  rewrite (trimStart_of_clean (trimEnd (trimStart s))).
  - apply trimEnd_idempotent.
  - apply trimEnd_clean, trimStart_clean.
Qed.

End Trim.

(** ** Membership tests *)

Lemma mem_In (x : string) (l : list string) : Str.mem x l = true <-> In x l.
Proof.
  unfold Str.mem. rewrite existsb_exists. split.
  - intros (y & Hy & E). apply String.eqb_eq in E. now subst.
  - intros H. exists x. split; [assumption | apply String.eqb_refl].
Qed.

Lemma mem_id_In (x : N) (l : list N) : mem_id x l = true <-> In x l.
Proof.
  unfold mem_id. rewrite existsb_exists. split.
  - intros (y & Hy & E). apply N.eqb_eq in E. now subst.
  - intros H. exists x. split; [assumption | apply N.eqb_refl].
Qed.

Lemma mem_id_not_In (x : N) (l : list N) : mem_id x l = false <-> ~ In x l.
Proof.
  rewrite <- mem_id_In. destruct (mem_id x l); split; congruence.
Qed.

Lemma truthy_ne (s : string) : Str.truthy s = true <-> s <> "".
Proof.
  unfold Str.truthy. destruct (String.eqb_spec s ""); cbn; split; congruence.
Qed.

Lemma idnum_eqb_eq (a b : idnum) : idnum_eqb a b = true <-> a = b.
Proof.
  destruct a, b; cbn; try (split; congruence).
  rewrite N.eqb_eq. split; congruence.
Qed.

(** ** The normalizers on stored values *)

Lemma normalizeLevel_valid (v : jsval) :
  Str.truthy (normalizeLevel v) = true -> In (normalizeLevel v) LEVELS.
Proof.
  unfold normalizeLevel. destruct (Str.mem _ LEVELS) eqn:E.
  - intros _. now apply mem_In.
  - discriminate.
Qed.

Lemma normalizeCategory_valid (v : jsval) :
  Str.truthy (normalizeCategory v) = true -> In (normalizeCategory v) CATEGORY.
Proof.
  unfold normalizeCategory. destruct (Str.mem _ CATEGORY) eqn:E.
  - intros _. now apply mem_In.
  - discriminate.
Qed.

Lemma normalizeLevel_stored (l : string) :
  In l LEVELS -> normalizeLevel (JStr l) = l.
Proof.
  intros H. cbn in H.
  destruct H as [<-|[<-|[<-|[<-|[<-|[]]]]]]; reflexivity.
Qed.

Lemma normalizeCategory_stored (c : string) :
  In c CATEGORY -> normalizeCategory (JStr c) = c.
Proof. intros H. cbn in H. destruct H as [<-|[<-|[]]]; reflexivity. Qed.

(** ** Reading the nodes of the data file *)

Lemma prepare_node_normal (n m : node) :
  prepare_node n = Some m -> normal_node m /\ node_id m = node_id n.
Proof.
  unfold prepare_node, normalizeNode; cbn [nd_content nd_level nd_category
    in_content in_level in_category toSafeString].
  destruct (Str.truthy (Str.trim (node_content n))) eqn:Hc; [|discriminate].
  destruct (Str.truthy (normalizeLevel (JStr (node_level n)))) eqn:Hl;
    [|discriminate].
  cbn [negb orb]. intros [= <-]. cbn. split; [|reflexivity].
  repeat split.
  - apply trim_idempotent.
  - assumption.
  - now apply normalizeLevel_valid.
  - unfold or_else.
    destruct (Str.truthy (normalizeCategory (JStr (node_category n)))) eqn:Hk.
    + now apply normalizeCategory_valid.
    + cbn. auto.
Qed.

Lemma prepare_node_stored (n : node) : normal_node n -> prepare_node n = Some n.
Proof.
  destruct n as [i c l k]. unfold normal_node.
  cbn [node_content node_level node_category]. intros (Ht & Hc & Hl & Hk).
  unfold prepare_node, normalizeNode; cbn [nd_content nd_level nd_category
    in_content in_level in_category toSafeString node_content node_level
    node_category node_id].
  rewrite Ht, Hc, (normalizeLevel_stored _ Hl), (normalizeCategory_stored _ Hk).
  assert (Str.truthy l = true) as ->
      by (cbn in Hl; destruct Hl as [<-|[<-|[<-|[<-|[<-|[]]]]]]; reflexivity).
  assert (Str.truthy k = true) as Hk'
      by (cbn in Hk; destruct Hk as [<-|[<-|[]]]; reflexivity).
  unfold or_else. rewrite Hk'. reflexivity.
Qed.

Lemma In_filter_some {A B} (f : A -> option B) (l : list A) (b : B) :
  In b (filter_some f l) <-> exists a, In a l /\ f a = Some b.
Proof.
  induction l as [|a l IH]; cbn.
  - split; [tauto | intros (a & [] & _)].
  - destruct (f a) eqn:E; cbn; rewrite IH; split.
    + intros [<-|(x & Hx & Hf)]; eauto.
    + intros (x & [<-|Hx] & Hf); [left; congruence | eauto].
    + intros (x & Hx & Hf); eauto.
    + intros (x & [<-|Hx] & Hf); [congruence | eauto].
Qed.

Lemma filter_some_fixed {A} (f : A -> option A) (l : list A) :
  (forall a, In a l -> f a = Some a) -> filter_some f l = l.
Proof.
  induction l as [|a l IH]; cbn; [reflexivity|]. intros H.
  rewrite (H a (or_introl eq_refl)). f_equal. apply IH. auto.
Qed.

(** *** The loop that looks for an unused id *)

Lemma above_shrinks (id : N) (used : list N) :
  In id used ->
  (List.length (filter (fun x => (id + 1 <=? x)%N) used)
   < List.length (filter (fun x => (id <=? x)%N) used))%nat.
Proof.
  induction used as [|u used IH]; cbn [filter In]; [tauto|].
  assert (forall l : list N,
             List.length (filter (fun x => (id + 1 <=? x)%N) l)
             <= List.length (filter (fun x => (id <=? x)%N) l))%nat as Hle.
  { induction l as [|y l IHl]; cbn [filter List.length]; [lia|].
    destruct (N.leb_spec (id + 1) y), (N.leb_spec id y);
      cbn [List.length]; lia. }
  intros [->|Hin].
  - rewrite N.leb_refl.
    destruct (N.leb_spec (id + 1) id); [lia|]. cbn [List.length].
    specialize (Hle used). lia.
  - specialize (IH Hin).
    destruct (N.leb_spec (id + 1) u), (N.leb_spec id u);
      cbn [List.length]; lia.
Qed.

Lemma count_up_unused (fuel : nat) (used : list N) (id : N) :
  (List.length (filter (fun x => (id <=? x)%N) used) <= fuel)%nat ->
  ~ In (count_up fuel used id) used.
Proof.
  revert id. induction fuel as [|fuel IH]; intros id Hlen; cbn.
  - intros Hin.
    assert (In id (filter (fun x => (id <=? x)%N) used)) as Hf
        by (apply filter_In; split; [assumption | apply N.leb_refl]).
    destruct (filter (fun x => (id <=? x)%N) used); [contradiction|].
    cbn in Hlen. lia.
  - destruct (mem_id id used) eqn:E.
    + apply IH. apply mem_id_In in E.
      pose proof (above_shrinks id used E). lia.
    + now apply mem_id_not_In.
Qed.

Lemma first_unused_fresh (used : list N) : ~ In (first_unused used) used.
Proof.
  apply count_up_unused, filter_length_le.
Qed.

Lemma assign_id_fresh (used : list N) (id : N) : ~ In (assign_id used id) used.
Proof.
  unfold assign_id. destruct (mem_id id used) eqn:E.
  - apply first_unused_fresh.
  - now apply mem_id_not_In.
Qed.

Lemma assign_id_free (used : list N) (id : N) :
  ~ In id used -> assign_id used id = id.
Proof.
  intros H. unfold assign_id. apply mem_id_not_In in H. now rewrite H.
Qed.

Lemma number_nodes_ids (l : list node) : forall used,
  NoDup (map node_id (number_nodes used l))
  /\ forall x, In x (map node_id (number_nodes used l)) -> ~ In x used.
Proof.
  induction l as [|n l IH]; intros used; cbn.
  - split; [constructor | tauto].
  - destruct (IH (assign_id used (node_id n) :: used)) as [Hnd Hout].
    split.
    + constructor; [|assumption]. intros Hin. apply (Hout _ Hin). now left.
    + intros x [<-|Hin].
      * apply assign_id_fresh.
      * intros Hu. apply (Hout _ Hin). now right.
Qed.

Lemma number_nodes_normal (l : list node) : forall used,
  Forall normal_node l -> Forall normal_node (number_nodes used l).
Proof.
  induction l as [|n l IH]; intros used H; cbn; [constructor|].
  inversion H; subst. constructor; [|now apply IH].
  destruct n; assumption.
Qed.

Lemma number_nodes_fixed (l : list node) : forall used,
  NoDup (map node_id l) ->
  (forall x, In x (map node_id l) -> ~ In x used) ->
  number_nodes used l = l.
Proof.
  induction l as [|n l IH]; intros used Hnd Hout; cbn; [reflexivity|].
  cbn in Hnd. inversion Hnd as [|? ? Hn Hnd']; subst.
  rewrite assign_id_free by (apply Hout; now left).
  destruct n as [i c lv k]; cbn in *. f_equal.
  apply IH; [assumption|].
  intros x Hx [<-|Hu]; [contradiction|]. apply (Hout x); auto.
Qed.

Lemma load_nodes_normal (parsed : store) :
  Forall normal_node (nodes (load parsed))
  /\ NoDup (map node_id (nodes (load parsed))).
Proof.
  cbn. split.
  - apply number_nodes_normal, Forall_forall. intros m Hm.
    apply In_filter_some in Hm as (n & _ & Hn).
    now apply prepare_node_normal in Hn.
  - apply number_nodes_ids.
Qed.

Lemma load_nodes_fixed (l : list node) (rs : list recipe) :
  Forall normal_node l -> NoDup (map node_id l) ->
  nodes (load (mkStore l rs)) = l.
Proof.
  intros Hn Hnd. cbn. rewrite filter_some_fixed.
  - apply number_nodes_fixed; [assumption | tauto].
  - intros n Hin. apply prepare_node_stored.
    now apply (proj1 (Forall_forall _ _) Hn).
Qed.

(** ** Reading the data file *)

Lemma readStore_run (f : file) :
  run readStore f
  = match f with Some parsed => load parsed | None => mkStore [] [] end.
Proof. destruct f; reflexivity. Qed.

Lemma readStore_pair (f : file) :
  readStore f = (run readStore f, exec readStore f).
Proof. destruct f; reflexivity. Qed.

Lemma readStore_again (f : file) :
  run readStore (exec readStore f) = run readStore f
  /\ exec readStore (exec readStore f) = exec readStore f.
Proof. destruct f; split; reflexivity. Qed.

Lemma view_nodes_normal (f : file) :
  Forall normal_node (nodes (run readStore f))
  /\ NoDup (map node_id (nodes (run readStore f))).
Proof.
  rewrite readStore_run. destruct f as [parsed|].
  - apply load_nodes_normal.
  - cbn. split; constructor.
Qed.

Lemma normal_node_valid (n : node) : normal_node n -> valid_unit n.
Proof. intros (_ & _ & Hl & Hc). split; assumption. Qed.

(** ** Reading the recipes of the data file *)

Lemma number_recipes_fields (l : list recipe) : forall used r,
  In r (number_recipes used l) ->
  exists r0, In r0 l
             /\ recipe_knowledgePoints r = recipe_knowledgePoints r0
             /\ recipe_level r = recipe_level r0.
Proof.
  induction l as [|a l IH]; intros used r; cbn; [tauto|].
  intros [<-|Hin].
  - exists a. cbn. auto.
  - destruct (IH _ _ Hin) as (r0 & H0 & Hk). eauto.
Qed.

Lemma prepare_recipe_valid (units : list node) (r m : recipe) :
  prepare_recipe units r = Some m ->
  areValidKnowledgeIds (recipe_knowledgePoints m) units = true.
Proof.
  unfold prepare_recipe.
  destruct (_ || _ || _ || _); [discriminate|].
  destruct (areValidKnowledgeIds _ units) eqn:E; cbn [negb]; [|discriminate].
  intros [= <-]. exact E.
Qed.

Lemma view_recipes_valid (f : file) (r : recipe) :
  In r (recipes (run readStore f)) ->
  areValidKnowledgeIds (recipe_knowledgePoints r) (nodes (run readStore f))
  = true.
Proof.
  rewrite readStore_run. destruct f as [parsed|]; [|intros []].
  cbn [load recipes nodes]. intros Hin.
  apply number_recipes_fields in Hin as (r0 & H0 & -> & _).
  apply In_filter_some in H0 as (a & _ & Ha).
  now apply prepare_recipe_valid in Ha.
Qed.

(** ** The checks of a composition *)

Lemma has_id_In (id : idnum) (units : list node) :
  has_id id units = true <-> exists n, In n units /\ Fin (node_id n) = id.
Proof.
  unfold has_id. rewrite existsb_exists. split.
  - intros (n & Hn & E). apply idnum_eqb_eq in E. eauto.
  - intros (n & Hn & E). exists n. split; [assumption|].
    apply idnum_eqb_eq. congruence.
Qed.

Lemma nodeMap_get_from (id : idnum) (units : list node) : forall found,
  fold_left
    (fun found n => if idnum_eqb id (Fin (node_id n)) then Some n else found)
    units found
  = match nodeMap_get units id with
    | Some n => Some n
    | None => found
    end.
Proof.
  unfold nodeMap_get.
  induction units as [|u units IH]; intros found; cbn; [reflexivity|].
  rewrite IH, (IH (if idnum_eqb id (Fin (node_id u)) then Some u else None)).
  destruct (fold_left _ units None); [reflexivity|].
  now destruct (idnum_eqb id (Fin (node_id u))).
Qed.

Lemma nodeMap_get_Some (id : idnum) (units : list node) (n : node) :
  nodeMap_get units id = Some n -> In n units /\ Fin (node_id n) = id.
Proof.
  induction units as [|u units IH]; [discriminate|].
  unfold nodeMap_get; cbn [fold_left]. rewrite nodeMap_get_from.
  destruct (nodeMap_get units id) as [m|] eqn:E.
  - intros [= <-]. destruct (IH eq_refl). split; [now right | assumption].
  - destruct (idnum_eqb id (Fin (node_id u))) eqn:Hu; [|discriminate].
    intros [= <-]. apply idnum_eqb_eq in Hu. split; [now left | congruence].
Qed.

Lemma nodeMap_get_has (id : idnum) (units : list node) :
  has_id id units = true -> exists n, nodeMap_get units id = Some n.
Proof.
  induction units as [|u units IH]; [discriminate|].
  unfold nodeMap_get; cbn [fold_left has_id existsb]. rewrite nodeMap_get_from.
  destruct (nodeMap_get units id) as [m|]; [eauto|].
  destruct (idnum_eqb id (Fin (node_id u))); [eauto|].
  cbn [orb]. intros H. destruct (IH H) as (n & Hn). discriminate.
Qed.

Lemma check_passed (units : list node) (d : recipe_data) :
  Forall normal_node units ->
  check units d = None ->
  rd_knowledgePoints d <> []
  /\ forallb (usable_point units (rd_level d)) (rd_knowledgePoints d) = true.
Proof.
  intros Hn. unfold check, missing_fields.
  destruct (rd_knowledgePoints d) as [|k ks] eqn:Ek; [discriminate|].
  cbn [List.length Nat.eqb orb]. rewrite <- Ek.
  destruct (_ || _ || _); [discriminate|].
  destruct (areValidKnowledgeIds _ units) eqn:Ev; cbn [negb]; [|discriminate].
  destruct (findUnavailableKnowledgeIds _ units _) as [|x xs] eqn:Eu;
    [|discriminate].
  intros _. split; [congruence|].
  apply forallb_forall. intros id Hid.
  pose proof (proj1 (forallb_forall _ _) Ev id Hid) as Hhas.
  destruct (nodeMap_get_has _ _ Hhas) as (n & Hget).
  destruct (nodeMap_get_Some _ _ _ Hget) as (Hin & Hidn).
  assert (~ In id (findUnavailableKnowledgeIds
                     (rd_knowledgePoints d) units (rd_level d))) as Hnot
      by (rewrite Eu; intros []).
  unfold findUnavailableKnowledgeIds in Hnot. rewrite filter_In in Hnot.
  rewrite Hget in Hnot.
  assert (Str.mem (rd_level d) (getUsableLevelsForNode n) = true) as Hmem.
  { destruct (Str.mem (rd_level d) (getUsableLevelsForNode n)); [reflexivity|].
    exfalso. apply Hnot. split; [assumption | reflexivity]. }
  rewrite usable_levels_agree in Hmem
    by (apply normal_node_valid; now apply (proj1 (Forall_forall _ _) Hn)).
  unfold usable_point. apply existsb_exists. exists n.
  split; [assumption|]. rewrite Hmem, andb_true_r.
  unfold is_node. apply idnum_eqb_eq. assumption.
Qed.

Lemma check_missing (units : list node) (d : recipe_data) (id : idnum) :
  missing_fields d = false ->
  In id (rd_knowledgePoints d) ->
  (forall n, In n units -> Fin (node_id n) <> id) ->
  check units d = Some must_exist.
Proof.
  intros Hm Hin Hno. unfold check. rewrite Hm.
  destruct (areValidKnowledgeIds _ units) eqn:Ev; [|reflexivity].
  pose proof (proj1 (forallb_forall _ _) Ev id Hin) as Hhas.
  apply has_id_In in Hhas as (n & Hn & E). now destruct (Hno n Hn).
Qed.

(** ** The two handlers of compositions, through [check] *)

Lemma post_recipes_check (req : recipe_input) (f : file) :
  post_recipes req f
  = let s := run readStore f in
    let normalized := normalizeRecipe req in
    match check (nodes s) normalized with
    | Some r => (r, exec readStore f)
    | None =>
        let record := recipe_of (nextId (map recipe_id (recipes s))) normalized in
        (mkResponse 201 (RecipeJson record),
         Some (mkStore (nodes s) (record :: recipes s)))
    end.
Proof.
  unfold post_recipes, check, readNodeList, readRecipeList, writeRecipeList,
    bind, ret.
  rewrite (readStore_pair f). cbv zeta.
  destruct (missing_fields _); [reflexivity|].
  destruct (negb _); [reflexivity|].
  destruct (0 <? _)%nat; [reflexivity|].
  destruct f; reflexivity.
Qed.

Lemma findIndex_found {A} (p : A -> bool) (l : list A) (i : nat) :
  findIndex p l = Some i ->
  exists a, nth_error l i = Some a /\ p a = true.
Proof.
  revert i. induction l as [|x l IH]; intros i; cbn; [discriminate|].
  destruct (p x) eqn:E.
  - intros [= <-]. exists x. now split.
  - destruct (findIndex p l) as [j|]; [|discriminate]. intros [= <-].
    cbn. apply IH. reflexivity.
Qed.

Lemma set_at_In {A} (l : list A) (i : nat) (a x : A) :
  nth_error l i = Some a -> In x (set_at l i x).
Proof.
  revert i. induction l as [|y l IH]; intros [|i]; cbn; try discriminate.
  - intros _. now left.
  - intros H. right. eauto.
Qed.

Lemma patch_recipes_check (param : string) (req : recipe_input) (f : file)
      (id : idnum) (index : nat) (current : recipe) :
  parseParamId (JStr param) = Some id ->
  findIndex (is_recipe id) (recipes (run readStore f)) = Some index ->
  nth_error (recipes (run readStore f)) index = Some current ->
  patch_recipes param req f
  = let s := run readStore f in
    let normalized := normalizeRecipe (recipe_patch req current) in
    match check (nodes s) normalized with
    | Some r => (r, exec readStore f)
    | None =>
        let updated := recipe_of (recipe_id current) normalized in
        (mkResponse 200 (RecipeJson updated),
         Some (mkStore (nodes s) (set_at (recipes s) index updated)))
    end.
Proof.
  intros Hp Hi Hc.
  unfold patch_recipes, check, readNodeList, readRecipeList, writeRecipeList,
    bind, ret.
  rewrite Hp, (readStore_pair f). cbv zeta.
  rewrite (readStore_pair (exec readStore f)).
  destruct (readStore_again f) as [-> ->].
  rewrite Hi, Hc.
  destruct (missing_fields _); [reflexivity|].
  destruct (negb _); [reflexivity|].
  destruct (0 <? _)%nat; [reflexivity|].
  rewrite (readStore_pair (exec readStore f)).
  destruct (readStore_again f) as [-> ->]. reflexivity.
Qed.

Lemma patch_recipes_unfound (param : string) (req : recipe_input) (f : file) :
  (parseParamId (JStr param) = None
   \/ exists id, parseParamId (JStr param) = Some id
                 /\ findIndex (is_recipe id) (recipes (run readStore f)) = None)
  ->
  (patch_recipes param req f = (bad_id, f)
   \/ patch_recipes param req f = (not_found, exec readStore f)).
Proof.
  intros [Hp|(id & Hp & Hi)];
    unfold patch_recipes, readNodeList, readRecipeList, bind, ret;
    rewrite Hp; [now left|]. right.
  rewrite (readStore_pair f). cbv zeta.
  rewrite (readStore_pair (exec readStore f)).
  destruct (readStore_again f) as [-> ->]. now rewrite Hi.
Qed.

Lemma patch_recipes_cases (param : string) (req : recipe_input) (f : file) :
  patch_recipes param req f = (bad_id, f)
  \/ patch_recipes param req f = (not_found, exec readStore f)
  \/ exists id index current,
      parseParamId (JStr param) = Some id
      /\ findIndex (is_recipe id) (recipes (run readStore f)) = Some index
      /\ nth_error (recipes (run readStore f)) index = Some current.
Proof.
  destruct (parseParamId (JStr param)) as [id|] eqn:Hp.
  - destruct (findIndex (is_recipe id) (recipes (run readStore f)))
      as [index|] eqn:Hi.
    + destruct (findIndex_found _ _ _ Hi) as (current & Hc & _).
      right; right. eauto 6.
    + destruct (patch_recipes_unfound param req f) as [H|H]; eauto.
  - destruct (patch_recipes_unfound param req f) as [H|H]; eauto.
Qed.

Lemma check_rejects (units : list node) (d : recipe_data) (r : response) :
  check units d = Some r -> validation_failure r /\ status r = 400%N.
Proof.
  unfold check, validation_failure.
  destruct (missing_fields d); [intros [= <-]; auto|].
  destruct (negb _); [intros [= <-]; auto|].
  destruct (0 <? _)%nat; [|discriminate].
  intros [= <-]. split; [|reflexivity]. right; right. eauto.
Qed.

Lemma validation_failure_status (r : response) :
  validation_failure r -> status r = 400%N.
Proof. intros [->|[->|(l & ids & ->)]]; reflexivity. Qed.

Lemma validation_failure_payload (r : response) :
  validation_failure r ->
  payload r <> Message "id must be a non-negative integer"
  /\ payload r <> Message "Record not found".
Proof.
  intros [->|[->|(l & ids & ->)]]; cbn; split; intros [=].
Qed.

Lemma valid_ids_finite (ids : list idnum) (units : list node) :
  areValidKnowledgeIds ids units = true ->
  map id_value ids = map parsed_id ids
  /\ keep_ids (map id_value ids) = ids.
Proof.
  induction ids as [|id ids IH]; [cbn; auto|].
  cbn [areValidKnowledgeIds forallb]. intros H.
  apply andb_true_iff in H as [Hid Hrest].
  destruct (IH Hrest) as [E1 E2].
  apply has_id_In in Hid as (n & _ & <-).
  cbn [map id_value parsed_id keep_ids normalizeNumericId].
  rewrite E2, E1, N2Z.id.
  destruct (Z.leb_spec 0 (Z.of_N (node_id n))); [auto | lia].
Qed.

(** ** Validation on create and update *)

(** C7. When a composition create or update is answered with a validation
    failure (required fields or an empty list of knowledge points, ids that
    do not exist, ids not usable at the level), an existing data file is
    left exactly as it was, and the store read from the file after the call
    is the store read before it. (When the file did not exist yet, reading
    it creates it with no units and no compositions.) *)
Theorem failed_validation_writes_nothing :
  forall (r : request) (f : file),
    recipe_request r ->
    validation_failure (run (handle r) f) ->
    (forall s, f = Some s -> exec (handle r) f = Some s)
    /\ run readStore (exec (handle r) f) = run readStore f.
Proof.
  intros r f Hr Hfail.
  assert (exec (handle r) f = exec readStore f) as E.
  { destruct r as [| | |req|param req]; try contradiction; cbn [handle] in *.
    - unfold run, exec in *. rewrite post_recipes_check in *. cbv zeta in *.
      destruct (check _ _); [reflexivity|].
      apply validation_failure_status in Hfail. discriminate.
    - unfold run, exec in *.
      destruct (patch_recipes_cases param req f)
        as [H|[H|(id & index & current & Hp & Hi & Hc)]].
      + rewrite H in Hfail. apply validation_failure_payload in Hfail.
        now destruct Hfail.
      + now rewrite H.
      + rewrite (patch_recipes_check _ _ _ _ _ _ Hp Hi Hc) in *.
        cbv zeta in *. destruct (check _ _); [reflexivity|].
        apply validation_failure_status in Hfail. discriminate. }
  rewrite E. split.
  - intros s ->. reflexivity.
  - apply readStore_again.
Qed.

Lemma failed_validation_writes_nothing_witness :
  (forall s, Sample.unit_five = Some s ->
             exec (handle (CreateRecipe
                             (Sample.citing [JNum (NInt 5); JNum (NInt 9)])))
                  Sample.unit_five = Some s)
  /\ run readStore
         (exec (handle (CreateRecipe
                          (Sample.citing [JNum (NInt 5); JNum (NInt 9)])))
               Sample.unit_five)
     = run readStore Sample.unit_five.
Proof.
  apply failed_validation_writes_nothing.
  - simpl. exact I.
  - right; left. vm_compute. reflexivity.
Defined.

(** C2, as the code has it. A composition create or update that is accepted
    writes a composition whose list of knowledge points is not empty and
    whose every id is the id of a knowledge unit of the data file, usable at
    the composition's level by [getRelativeCategory]; the units of the file
    are the ones that were read for the check. Nothing is promised once a
    unit is updated or deleted afterwards. *)
Theorem accepted_recipe_in_order :
  forall (r : request) (f : file),
    recipe_request r ->
    verdict_of (run (handle r) f) = Accepted ->
    exists rec s,
      payload (run (handle r) f) = RecipeJson rec
      /\ exec (handle r) f = Some s
      /\ In rec (recipes s)
      /\ nodes s = nodes (run readStore f)
      /\ recipe_knowledgePoints rec <> []
      /\ recipe_in_order (nodes s) rec = true.
Proof.
  intros r f Hr Hok.
  destruct (view_nodes_normal f) as [Hnormal _].
  destruct r as [| | |req|param req]; try contradiction; cbn [handle] in *.
  - unfold run, exec in *. rewrite post_recipes_check in *. cbv zeta in *.
    destruct (check _ _) as [resp|] eqn:Ec.
    + apply check_rejects in Ec as [_ Es]. cbn [fst] in Hok.
      unfold verdict_of in Hok. rewrite Es in Hok. discriminate.
    + destruct (check_passed _ _ Hnormal Ec) as [Hne Hall].
      eexists _, _. cbn [fst snd payload].
      repeat split; [now left | exact Hne | exact Hall].
  - unfold run, exec in *.
    destruct (patch_recipes_cases param req f)
      as [H|[H|(id & index & current & Hp & Hi & Hc)]];
      try (rewrite H in Hok; discriminate).
    rewrite (patch_recipes_check _ _ _ _ _ _ Hp Hi Hc) in *. cbv zeta in *.
    destruct (check _ _) as [resp|] eqn:Ec.
    + apply check_rejects in Ec as [_ Es]. cbn [fst] in Hok.
      unfold verdict_of in Hok. rewrite Es in Hok. discriminate.
    + destruct (check_passed _ _ Hnormal Ec) as [Hne Hall].
      eexists _, _. cbn [fst snd payload].
      repeat split; [eapply set_at_In; eassumption | exact Hne | exact Hall].
Qed.

Lemma accepted_recipe_in_order_witness :
  exists rec s,
    payload (run (handle (CreateRecipe Sample.album_recipe)) Sample.one_unit)
    = RecipeJson rec
    /\ exec (handle (CreateRecipe Sample.album_recipe)) Sample.one_unit
       = Some s
    /\ In rec (recipes s)
    /\ nodes s = nodes (run readStore Sample.one_unit)
    /\ recipe_knowledgePoints rec <> []
    /\ recipe_in_order (nodes s) rec = true.
Proof.
  apply accepted_recipe_in_order.
  - simpl. exact I.
  - vm_compute. reflexivity.
Defined.

(** C2 fails as stated: after a unit is created, a composition citing it is
    accepted and the unit's category is then changed, the data file (and
    what a reader gets from it) holds a composition citing a unit that is
    not usable at its level. *)
Lemma persisted_recipe_out_of_order :
  file_in_order
    (serve [CreateNode Sample.single_form;
            CreateRecipe Sample.album_recipe;
            UpdateNode "0" Sample.to_material] None) = false
  /\ view_in_order
       (serve [CreateNode Sample.single_form;
               CreateRecipe Sample.album_recipe;
               UpdateNode "0" Sample.to_material] None) = false
  /\ serve [CreateNode Sample.single_form;
            CreateRecipe Sample.album_recipe;
            UpdateNode "0" Sample.to_material] None
     = Some (mkStore
               [mkNode 0 "the chorus answers the verse" "single" "material"]
               [mkRecipe 0 [Fin 0] "order the singles" "album"
                         "an arc of answers"]).
Proof. vm_compute. repeat split. Qed.

(** C6. A composition update validates as a creation does: for an update
    that finds its composition, the outcome (accepted, or rejected and with
    which body: required fields, ids that do not exist, ids not usable at
    the level) is the outcome of creating a composition from the merged
    fields. When the request leaves the knowledge points out, as an update
    of the level alone does, the list validated is the stored one. *)
Theorem update_validates_as_create :
  forall (f : file) (param : string) (req : recipe_input)
         (id : idnum) (index : nat),
    parseParamId (JStr param) = Some id ->
    findIndex (is_recipe id) (recipes (run readStore f)) = Some index ->
    exists current,
      nth_error (recipes (run readStore f)) index = Some current
      /\ verdict_of (run (patch_recipes param req) f)
         = verdict_of (run (post_recipes (recipe_patch req current)) f)
      /\ (in_knowledgePoints req = JUndef \/ in_knowledgePoints req = JNull ->
          rd_knowledgePoints (normalizeRecipe (recipe_patch req current))
          = recipe_knowledgePoints current).
Proof.
  intros f param req id index Hp Hi.
  destruct (findIndex_found _ _ _ Hi) as (current & Hc & _).
  exists current. split; [exact Hc|]. split.
  - unfold run.
    rewrite (patch_recipes_check _ _ _ _ _ _ Hp Hi Hc), post_recipes_check.
    cbv zeta. destruct (check _ _); reflexivity.
  - intros Hkp.
    assert (In current (recipes (run readStore f))) as Hin
        by (eapply nth_error_In; eassumption).
    apply view_recipes_valid, valid_ids_finite in Hin as [_ Hkeep].
    unfold recipe_patch, normalizeRecipe;
      cbn [rd_knowledgePoints in_knowledgePoints].
    destruct Hkp as [-> | ->]; exact Hkeep.
Qed.

Lemma update_validates_as_create_witness :
  exists current,
    nth_error (recipes (run readStore Sample.one_recipe)) 0 = Some current
    /\ verdict_of (run (patch_recipes "0" Sample.to_segment) Sample.one_recipe)
       = verdict_of
           (run (post_recipes (recipe_patch Sample.to_segment current))
                Sample.one_recipe)
    /\ (in_knowledgePoints Sample.to_segment = JUndef
        \/ in_knowledgePoints Sample.to_segment = JNull ->
        rd_knowledgePoints
          (normalizeRecipe (recipe_patch Sample.to_segment current))
        = recipe_knowledgePoints current).
Proof.
  apply (update_validates_as_create Sample.one_recipe "0" Sample.to_segment
           (Fin 0) 0).
  - vm_compute. reflexivity.
  - vm_compute. reflexivity.
Defined.

(** C3, as the code has it. When the normalized request has its required
    fields and at least one of its ids is the id of no knowledge unit, a
    create and an update are both answered with the one fixed failure
    "knowledgePoints must be existing node ids", which carries no id; the
    answer is given before usability is looked at, so it is the same
    whatever the usability of the other ids, and the file is only read. *)
Theorem missing_ids_rejected_first :
  forall (f : file) (d : recipe_data) (id : idnum),
    missing_fields d = false ->
    In id (rd_knowledgePoints d) ->
    (forall n, In n (nodes (run readStore f)) -> Fin (node_id n) <> id) ->
    (forall req,
        normalizeRecipe req = d ->
        post_recipes req f = (must_exist, exec readStore f))
    /\ (forall param req pid index current,
           parseParamId (JStr param) = Some pid ->
           findIndex (is_recipe pid) (recipes (run readStore f)) = Some index ->
           nth_error (recipes (run readStore f)) index = Some current ->
           normalizeRecipe (recipe_patch req current) = d ->
           patch_recipes param req f = (must_exist, exec readStore f)).
Proof.
  intros f d id Hm Hin Hno.
  pose proof (check_missing _ _ _ Hm Hin Hno) as Hc. split.
  - intros req <-. rewrite post_recipes_check. cbv zeta. now rewrite Hc.
  - intros param req pid index current Hp Hi Hcur <-.
    rewrite (patch_recipes_check _ _ _ _ _ _ Hp Hi Hcur). cbv zeta.
    now rewrite Hc.
Qed.

Lemma missing_ids_rejected_first_witness :
  (forall req,
      normalizeRecipe req
      = normalizeRecipe (Sample.citing [JNum (NInt 5); JNum (NInt 9)]) ->
      post_recipes req Sample.unit_five
      = (must_exist, exec readStore Sample.unit_five))
  /\ (forall param req pid index current,
         parseParamId (JStr param) = Some pid ->
         findIndex (is_recipe pid) (recipes (run readStore Sample.unit_five))
         = Some index ->
         nth_error (recipes (run readStore Sample.unit_five)) index
         = Some current ->
         normalizeRecipe (recipe_patch req current)
         = normalizeRecipe (Sample.citing [JNum (NInt 5); JNum (NInt 9)]) ->
         patch_recipes param req Sample.unit_five
         = (must_exist, exec readStore Sample.unit_five)).
Proof.
  apply (missing_ids_rejected_first Sample.unit_five
           (normalizeRecipe (Sample.citing [JNum (NInt 5); JNum (NInt 9)]))
           (Fin 9)).
  - vm_compute. reflexivity.
  - vm_compute. auto.
  - vm_compute. intros n [<-|[]]. discriminate.
Defined.

(** C3 fails as stated: with unit 5 in the store, a composition at level
    single citing [5, 9] and one citing [5, 7] get the same answer, the
    fixed message, so the answer does not name the missing id. *)
Lemma missing_ids_not_named :
  run (post_recipes (Sample.citing [JNum (NInt 5); JNum (NInt 9)]))
      Sample.unit_five
  = mkResponse 400 (Message "knowledgePoints must be existing node ids")
  /\ run (post_recipes (Sample.citing [JNum (NInt 5); JNum (NInt 7)]))
         Sample.unit_five
     = run (post_recipes (Sample.citing [JNum (NInt 5); JNum (NInt 9)]))
           Sample.unit_five
  /\ ~ (exists named : response -> list idnum,
           named (run (post_recipes
                         (Sample.citing [JNum (NInt 5); JNum (NInt 9)]))
                      Sample.unit_five) = [Fin 9]
           /\ named (run (post_recipes
                            (Sample.citing [JNum (NInt 5); JNum (NInt 7)]))
                         Sample.unit_five) = [Fin 7]).
Proof.
  assert (run (post_recipes (Sample.citing [JNum (NInt 5); JNum (NInt 9)]))
              Sample.unit_five
          = mkResponse 400
              (Message "knowledgePoints must be existing node ids")) as E9
      by (vm_compute; reflexivity).
  assert (run (post_recipes (Sample.citing [JNum (NInt 5); JNum (NInt 7)]))
              Sample.unit_five
          = mkResponse 400
              (Message "knowledgePoints must be existing node ids")) as E7
      by (vm_compute; reflexivity).
  rewrite E9, E7. repeat split.
  intros (named & H9 & H7). rewrite H9 in H7. discriminate.
Qed.

(** ** The usability preview *)

Section Preview.

Import LevelScale.

Lemma find_unique (id : idnum) (units : list node) (u : node) :
  NoDup (map node_id units) ->
  In u units -> Fin (node_id u) = id ->
  find (is_node id) units = Some u.
Proof.
  induction units as [|x units IH]; cbn [find In map]; [tauto|].
  intros Hnd [->|Hin] Hid.
  - unfold is_node. rewrite (proj2 (idnum_eqb_eq _ _) Hid). reflexivity.
  - inversion Hnd as [|? ? Hx Hnd']; subst.
    destruct (is_node (Fin (node_id u)) x) eqn:E.
    + unfold is_node in E. apply idnum_eqb_eq in E. injection E as E.
      exfalso. apply Hx. rewrite E. now apply in_map.
    + now apply IH.
Qed.

Lemma find_absent (id : idnum) (units : list node) :
  (forall n, In n units -> Fin (node_id n) <> id) ->
  find (is_node id) units = None.
Proof.
  intros H. destruct (find (is_node id) units) as [n|] eqn:E; [|reflexivity].
  apply find_some in E as [Hin Hn]. unfold is_node in Hn.
  apply idnum_eqb_eq in Hn.
  now destruct (H n Hin).
Qed.

(** C8. For a well-formed id and a target level in the enum, the preview
    answers "Record not found" when no unit has the id; for the unit that
    has the id it answers "not usable" when [getRelativeCategory] is empty
    and otherwise the unit's level and category, the target level and
    [getRelativeCategory] of the unit at the target level, which is the
    answer of the four-step rule. Existence is decided first. *)
Theorem relative_preview :
  forall (f : file) (param : string) (id : idnum) (query : jsval)
         (targetLevel : string),
    parseParamId (JStr param) = Some id ->
    normalizeLevel query = targetLevel ->
    In targetLevel LEVELS ->
    ((forall n, In n (nodes (run readStore f)) -> Fin (node_id n) <> id) ->
     run (get_node_relative param query) f = not_found)
    /\ (forall u,
           In u (nodes (run readStore f)) -> Fin (node_id u) = id ->
           (exists r c t,
               node_level u = rank_name r /\ node_category u = category_name c
               /\ targetLevel = rank_name t
               /\ getRelativeCategory u targetLevel = render (resolve r c t))
           /\ (getRelativeCategory u targetLevel = "" ->
               run (get_node_relative param query) f
               = mkResponse 400 (NodeNotUsable id targetLevel))
           /\ (getRelativeCategory u targetLevel <> "" ->
               run (get_node_relative param query) f
               = mkResponse 200
                   (RelativeJson (node_id u) (node_content u) (node_level u)
                      (node_category u) targetLevel
                      (getRelativeCategory u targetLevel)))).
Proof.
  intros f param id query T Hp HT HinT.
  assert (Str.truthy T = true) as Htruthy
      by (cbn in HinT; destruct HinT as [<-|[<-|[<-|[<-|[<-|[]]]]]];
          reflexivity).
  assert (forall o,
             find (is_node id) (nodes (run readStore f)) = o ->
             run (get_node_relative param query) f
             = match o with
               | None => not_found
               | Some item =>
                   if negb (Str.truthy (getRelativeCategory item T))
                   then mkResponse 400 (NodeNotUsable id T)
                   else mkResponse 200
                          (RelativeJson (node_id item) (node_content item)
                             (node_level item) (node_category item) T
                             (getRelativeCategory item T))
               end) as Hrun.
  { intros o <-. unfold run, get_node_relative, readNodeList, bind, ret.
    rewrite Hp, HT, Htruthy. cbn [negb]. rewrite (readStore_pair f).
    cbv zeta. destruct (find _ _); [|reflexivity].
    destruct (negb _); reflexivity. }
  destruct (view_nodes_normal f) as [Hnormal Hnd]. split.
  - intros Hno. now rewrite (Hrun _ (find_absent _ _ Hno)).
  - intros u Hu Hid. rewrite (Hrun _ (find_unique _ _ _ Hnd Hu Hid)).
    split; [|split].
    + pose proof (proj1 (Forall_forall _ _) Hnormal u Hu) as Hn.
      destruct (valid_unit_cases u (normal_node_valid u Hn))
        as (r & c & Hr & Hc).
      assert (exists t, T = rank_name t) as [t Ht].
      { cbn in HinT. destruct HinT as [<-|[<-|[<-|[<-|[<-|[]]]]]];
          [exists Album | exists Single | exists Segment
           | exists Phrase | exists Timbre]; reflexivity. }
      exists r, c, t. repeat split; try assumption.
      rewrite Ht. destruct u as [i ct lv k].
      cbn [node_level node_category] in Hr, Hc. rewrite Hr, Hc.
      exact (relative_category_by_rank i ct r c t).
    + intros ->. reflexivity.
    + intros Hne. apply truthy_ne in Hne. now rewrite Hne.
Qed.

Lemma relative_preview_witness :
  ((forall n, In n (nodes (run readStore Sample.one_unit)) ->
              Fin (node_id n) <> Fin 0) ->
   run (get_node_relative "0" (JStr " Album ")) Sample.one_unit = not_found)
  /\ (forall u,
         In u (nodes (run readStore Sample.one_unit)) ->
         Fin (node_id u) = Fin 0 ->
         (exists r c t,
             node_level u = rank_name r /\ node_category u = category_name c
             /\ "album" = rank_name t
             /\ getRelativeCategory u "album" = render (resolve r c t))
         /\ (getRelativeCategory u "album" = "" ->
             run (get_node_relative "0" (JStr " Album ")) Sample.one_unit
             = mkResponse 400 (NodeNotUsable (Fin 0) "album"))
         /\ (getRelativeCategory u "album" <> "" ->
             run (get_node_relative "0" (JStr " Album ")) Sample.one_unit
             = mkResponse 200
                 (RelativeJson (node_id u) (node_content u) (node_level u)
                    (node_category u) "album"
                    (getRelativeCategory u "album")))).
Proof.
  apply (relative_preview Sample.one_unit "0" (Fin 0) (JStr " Album ")
           "album").
  - vm_compute. reflexivity.
  - vm_compute. reflexivity.
  - simpl. auto.
Defined.

End Preview.

(** ** Deleting a knowledge unit *)

Lemma NoDup_map_filter {A B} (g : A -> B) (p : A -> bool) (l : list A) :
  NoDup (map g l) -> NoDup (map g (filter p l)).
Proof.
  induction l as [|a l IH]; cbn; [auto|]. intros H.
  inversion H as [|? ? Ha Hl]; subst.
  destruct (p a); cbn; [|auto]. constructor; [|auto].
  intros Hin. apply Ha. apply in_map_iff in Hin as (x & <- & Hx).
  apply filter_In in Hx as [Hx _]. now apply in_map.
Qed.

Lemma delete_nodes_found (param : string) (id : idnum) (f : file) :
  parseParamId (JStr param) = Some id ->
  existsb (is_node id) (nodes (run readStore f)) = true ->
  delete_nodes param f
  = (mkResponse 204 NoBody,
     Some (mkStore (filter (fun entry => negb (is_node id entry))
                           (nodes (run readStore f)))
                   (recipes (run readStore f)))).
Proof.
  intros Hp Hex. unfold delete_nodes, readNodeList, writeNodeList, bind, ret.
  rewrite Hp, (readStore_pair f). cbv zeta. rewrite Hex. cbn [negb].
  rewrite (readStore_pair (exec readStore f)).
  destruct (readStore_again f) as [-> ->]. reflexivity.
Qed.

(** C5, as the code has it. Deleting a knowledge unit that exists succeeds
    with status 204, and the write keeps every composition that was read,
    unchanged, also those citing the deleted id: nothing is re-validated or
    repaired by the delete. But a composition that cites the deleted id is
    not readable afterwards: no composition read from the file after the
    delete cites it, because [readStore] leaves out the compositions whose
    ids are not all ids of units. *)
Theorem delete_leaves_reference_unread :
  forall (f : file) (param : string) (id : idnum),
    parseParamId (JStr param) = Some id ->
    existsb (is_node id) (nodes (run readStore f)) = true ->
    run (delete_nodes param) f = mkResponse 204 NoBody
    /\ (exists s,
           exec (delete_nodes param) f = Some s
           /\ recipes s = recipes (run readStore f)
           /\ nodes s = filter (fun entry => negb (is_node id entry))
                               (nodes (run readStore f)))
    /\ (forall r,
           In r (recipes (run readStore (exec (delete_nodes param) f))) ->
           ~ In id (recipe_knowledgePoints r)).
Proof.
  intros f param id Hp Hex. unfold run at 1, exec.
  rewrite (delete_nodes_found _ _ _ Hp Hex). cbn [fst snd].
  split; [reflexivity|]. split; [eexists; repeat split|].
  intros r Hr Hin.
  apply view_recipes_valid in Hr. rewrite readStore_run in Hr.
  destruct (view_nodes_normal f) as [Hnormal Hnd].
  rewrite load_nodes_fixed in Hr.
  - pose proof (proj1 (forallb_forall _ _) Hr id Hin) as Hhas.
    apply has_id_In in Hhas as (n & Hn & E).
    apply filter_In in Hn as [_ Hn]. unfold is_node in Hn.
    rewrite (proj2 (idnum_eqb_eq _ _) E) in Hn. discriminate.
  - apply Forall_forall. intros n Hn. apply filter_In in Hn as [Hn _].
    now apply (proj1 (Forall_forall _ _) Hnormal).
  - now apply NoDup_map_filter.
Qed.

Lemma delete_leaves_reference_unread_witness :
  run (delete_nodes "0") Sample.one_recipe = mkResponse 204 NoBody
  /\ (exists s,
         exec (delete_nodes "0") Sample.one_recipe = Some s
         /\ recipes s = recipes (run readStore Sample.one_recipe)
         /\ nodes s = filter (fun entry => negb (is_node (Fin 0) entry))
                             (nodes (run readStore Sample.one_recipe)))
  /\ (forall r,
         In r (recipes (run readStore
                          (exec (delete_nodes "0") Sample.one_recipe))) ->
         ~ In (Fin 0) (recipe_knowledgePoints r)).
Proof.
  apply (delete_leaves_reference_unread Sample.one_recipe "0" (Fin 0)).
  - vm_compute. reflexivity.
  - vm_compute. reflexivity.
Defined.

(** C5 fails as stated: composition 0 cites unit 0 and is readable; after
    unit 0 is deleted the data file still holds the composition with its
    list unchanged, but reading it answers "Record not found". *)
Lemma referencing_recipe_not_readable :
  run (get_recipe "0") Sample.one_recipe
  = mkResponse 200
      (RecipeJson (mkRecipe 0 [Fin 0] "order the singles" "album"
                            "an arc of answers"))
  /\ run (delete_nodes "0") Sample.one_recipe = mkResponse 204 NoBody
  /\ exec (delete_nodes "0") Sample.one_recipe
     = Some (mkStore [] [mkRecipe 0 [Fin 0] "order the singles" "album"
                                  "an arc of answers"])
  /\ run (get_recipe "0") (exec (delete_nodes "0") Sample.one_recipe)
     = not_found.
Proof. vm_compute. repeat split. Qed.

(** ** Malformed input *)

Lemma keep_ids_drop (pre post : list jsval) (bad : jsval) :
  normalizeNumericId bad = None ->
  keep_ids (pre ++ bad :: post) = keep_ids (pre ++ post).
Proof.
  intros H. induction pre as [|x pre IH]; cbn [app keep_ids].
  - now rewrite H.
  - now rewrite IH.
Qed.

Lemma outside_enum (x : string) (l : list string) :
  ~ In x l -> Str.mem x l = false.
Proof.
  intros H. destruct (Str.mem x l) eqn:E; [|reflexivity].
  now apply mem_In in E.
Qed.

Lemma patch_nodes_check (param : string) (req : node_input) (f : file)
      (id : idnum) (index : nat) (current : node) :
  parseParamId (JStr param) = Some id ->
  findIndex (is_node id) (nodes (run readStore f)) = Some index ->
  nth_error (nodes (run readStore f)) index = Some current ->
  patch_nodes param req f
  = let s := run readStore f in
    let normalized := normalizeNode (node_patch req current) in
    if negb (Str.truthy (nd_content normalized))
       || negb (Str.truthy (nd_level normalized))
       || negb (Str.truthy (nd_category normalized))
    then (node_fields_required, exec readStore f)
    else
      let updated := node_of (node_id current) normalized in
      (mkResponse 200 (NodeJson updated),
       Some (mkStore (set_at (nodes s) index updated) (recipes s))).
Proof.
  intros Hp Hi Hc.
  unfold patch_nodes, readNodeList, writeNodeList, bind, ret.
  rewrite Hp, (readStore_pair f). cbv zeta. rewrite Hi, Hc.
  destruct (_ || _ || _); [reflexivity|].
  rewrite (readStore_pair (exec readStore f)).
  destruct (readStore_again f) as [-> ->]. reflexivity.
Qed.

(** C4, as the code has it. A composition create or update whose level, a
    unit create or update whose level or category, and a preview whose
    level is outside the enum is rejected at once: the file is at most read
    and no id is looked up. An id token that is not a non-negative integer
    or a string of digits (a negative number, a fraction, a string with
    another character) is dropped from the list and the request is handled
    as if the token were not there; a list in which no id is left is
    rejected as an empty one. 0 is an id. *)
Theorem malformed_input_handling :
  (forall (f : file) (req : recipe_input),
      ~ In (toSafeLower (in_recipe_level req)) LEVELS ->
      post_recipes req f = (recipe_fields_required, exec readStore f))
  /\ (forall (f : file) (param : string) (req : recipe_input)
             (id : idnum) (index : nat) (current : recipe),
         parseParamId (JStr param) = Some id ->
         findIndex (is_recipe id) (recipes (run readStore f)) = Some index ->
         nth_error (recipes (run readStore f)) index = Some current ->
         ~ In (toSafeLower (in_recipe_level (recipe_patch req current)))
              LEVELS ->
         patch_recipes param req f
         = (recipe_fields_required, exec readStore f))
  /\ (forall (f : file) (req : node_input),
         ~ In (toSafeLower (in_level req)) LEVELS
         \/ ~ In (toSafeLower (in_category req)) CATEGORY ->
         post_nodes req f = (node_fields_required, f))
  /\ (forall (f : file) (param : string) (req : node_input)
             (id : idnum) (index : nat) (current : node),
         parseParamId (JStr param) = Some id ->
         findIndex (is_node id) (nodes (run readStore f)) = Some index ->
         nth_error (nodes (run readStore f)) index = Some current ->
         ~ In (toSafeLower (in_level (node_patch req current))) LEVELS
         \/ ~ In (toSafeLower (in_category (node_patch req current)))
                 CATEGORY ->
         patch_nodes param req f = (node_fields_required, exec readStore f))
  /\ (forall (f : file) (param : string) (query : jsval) (id : idnum),
         parseParamId (JStr param) = Some id ->
         ~ In (toSafeLower query) LEVELS ->
         get_node_relative param query f = (level_required, f))
  /\ (forall (f : file) (pre post : list jsval) (bad p l d : jsval),
         normalizeNumericId bad = None ->
         post_recipes (mkRecipeInput (JArr (pre ++ bad :: post)) p l d) f
         = post_recipes (mkRecipeInput (JArr (pre ++ post)) p l d) f)
  /\ (forall (f : file) (p l d : jsval),
         post_recipes (mkRecipeInput (JArr []) p l d) f
         = (recipe_fields_required, exec readStore f))
  /\ (forall z, (z < 0)%Z -> normalizeNumericId (JNum (NInt z)) = None)
  /\ normalizeNumericId (JNum NOther) = None
  /\ (forall s, Num.all_digits (Str.trim s) = false ->
                normalizeNumericId (JStr s) = None)
  /\ normalizeNumericId (JNum (NInt 0)) = Some (Fin 0).
Proof.
  assert (forall units d,
             rd_level d = "" ->
             check units d = Some recipe_fields_required) as Hcheck.
  { intros units d E. unfold check, missing_fields. rewrite E.
    cbn [Str.truthy String.eqb negb]. now rewrite !orb_true_r. }
  assert (forall v, ~ In (toSafeLower v) LEVELS -> normalizeLevel v = "")
    as Hlevel.
  { intros v H. unfold normalizeLevel. now rewrite (outside_enum _ _ H). }
  assert (forall v, ~ In (toSafeLower v) CATEGORY -> normalizeCategory v = "")
    as Hcat.
  { intros v H. unfold normalizeCategory. now rewrite (outside_enum _ _ H). }
  repeat split.
  - intros f req H. rewrite post_recipes_check. cbv zeta.
    rewrite Hcheck; auto; cbn [normalizeRecipe rd_level]; auto.
  - intros f param req id index current Hp Hi Hc H.
    rewrite (patch_recipes_check _ _ _ _ _ _ Hp Hi Hc). cbv zeta.
    rewrite Hcheck; auto; cbn [normalizeRecipe rd_level]; auto.
  - intros f req H. unfold post_nodes, normalizeNode;
      cbn [nd_content nd_level nd_category].
    destruct H as [H|H]; [rewrite (Hlevel _ H) | rewrite (Hcat _ H)];
      cbn [Str.truthy String.eqb negb]; now rewrite ?orb_true_r.
  - intros f param req id index current Hp Hi Hc H.
    rewrite (patch_nodes_check _ _ _ _ _ _ Hp Hi Hc). cbv zeta.
    unfold normalizeNode; cbn [nd_content nd_level nd_category].
    destruct H as [H|H]; [rewrite (Hlevel _ H) | rewrite (Hcat _ H)];
      cbn [Str.truthy String.eqb negb]; now rewrite ?orb_true_r.
  - intros f param query id Hp H. unfold get_node_relative.
    rewrite Hp, (Hlevel _ H). reflexivity.
  - intros f pre post bad p l d H. rewrite !post_recipes_check.
    unfold normalizeRecipe, normalizeKnowledgePoints;
      cbn [in_knowledgePoints in_procedure in_recipe_level in_description].
    now rewrite (keep_ids_drop _ _ _ H).
  - intros f p l d. rewrite post_recipes_check. reflexivity.
  - intros z Hz. unfold normalizeNumericId.
    destruct (Z.leb_spec 0 z); [lia | reflexivity].
  - intros s H. unfold normalizeNumericId, toSafeString. now rewrite H.
Qed.

Lemma malformed_input_handling_witness :
  post_recipes
    (mkRecipeInput (JArr ([JNum (NInt 0)] ++ JStr "abc" :: [JNum (NInt (-1))]))
                   (JStr "order the singles") (JStr "album")
                   (JStr "an arc of answers")) Sample.one_unit
  = post_recipes
      (mkRecipeInput (JArr ([JNum (NInt 0)] ++ [JNum (NInt (-1))]))
                     (JStr "order the singles") (JStr "album")
                     (JStr "an arc of answers")) Sample.one_unit.
Proof.
  apply (proj1 (proj2 (proj2 (proj2 (proj2 (proj2
           malformed_input_handling)))))).
  vm_compute. reflexivity.
Defined.

(** C4 fails as stated: a list holding id 0, the string "abc", -1 and a
    non-integer number is accepted, and the composition is stored with the
    list [0]. *)
Lemma malformed_ids_dropped :
  post_recipes
    (mkRecipeInput
       (JArr [JNum (NInt 0); JStr "abc"; JNum (NInt (-1)); JNum NOther])
       (JStr "order the singles") (JStr "album") (JStr "an arc of answers"))
    Sample.one_unit
  = (mkResponse 201
       (RecipeJson (mkRecipe 0 [Fin 0] "order the singles" "album"
                             "an arc of answers")),
     Some (mkStore
             [mkNode 0 "the chorus answers the verse" "single" "form"]
             [mkRecipe 0 [Fin 0] "order the singles" "album"
                       "an arc of answers"])).
Proof. vm_compute. reflexivity. Qed.

(** ** Normalization *)

Lemma digit_not_space (c : ascii) :
  Num.is_digit c = true -> Str.is_space c = false.
Proof. destruct c as [[] [] [] [] [] [] [] []]; cbn; congruence. Qed.

Lemma trimEnd_digits (s : string) :
  Str.all_chars Num.is_digit s = true -> Str.trimEnd s = s.
Proof.
  induction s as [|c s IH]; cbn; [reflexivity|].
  intros H. apply andb_true_iff in H as [Hc Hs].
  rewrite (IH Hs), (digit_not_space _ Hc). now destruct s.
Qed.

Lemma trim_digits (s : string) :
  Str.all_chars Num.is_digit s = true -> Str.trim s = s.
Proof.
  intros H. unfold Str.trim.
  rewrite trimStart_of_clean; [now apply trimEnd_digits|].
  destruct s as [|c s]; cbn; [exact I|].
  cbn in H. apply andb_true_iff in H as [Hc _]. now apply digit_not_space.
Qed.

Lemma round53_exact (v : N) : (v <= 2 ^ 53)%N -> Num.round53 v = v.
Proof.
  intros H. unfold Num.round53. destruct (N.ltb_spec v (2 ^ 53)).
  - reflexivity.
  - assert (v = 2 ^ 53)%N as -> by lia. vm_compute. reflexivity.
Qed.

Lemma Number_of_digits_exact (text : string) :
  (Num.decimal text <= 2 ^ 53)%N ->
  Num.Number_of_digits text = Fin (Num.decimal text).
Proof.
  intros H. unfold Num.Number_of_digits. rewrite (round53_exact _ H).
  assert (Num.decimal text < 2 ^ 1024)%N as Hlt.
  { eapply N.le_lt_trans; [exact H|]. apply N.pow_lt_mono_r; lia. }
  apply N.ltb_lt in Hlt. now rewrite Hlt.
Qed.

(** C10, as the code has it. Level and category values are trimmed and
    lower-cased before they are matched against the enums, so a name of the
    enum in any letter case and with white space around it is accepted. A
    string of decimal digits, with white space around it or not, whose value
    is at most 2^53 is the id of that value, the same id as the number; 0 is
    an id. (Beyond 2^53 the id is the double nearest to the value.) *)
Theorem inputs_are_normalized :
  (forall pre s post : string,
      blank pre = true -> blank post = true ->
      In (Str.toLowerCase s) LEVELS ->
      normalizeLevel (JStr (pre ++ s ++ post)) = Str.toLowerCase s)
  /\ (forall pre s post : string,
         blank pre = true -> blank post = true ->
         In (Str.toLowerCase s) CATEGORY ->
         normalizeCategory (JStr (pre ++ s ++ post)) = Str.toLowerCase s)
  /\ (forall pre digits post : string,
         blank pre = true -> blank post = true ->
         Num.all_digits digits = true ->
         (Num.decimal digits <= 2 ^ 53)%N ->
         normalizeNumericId (JStr (pre ++ digits ++ post))
         = Some (Fin (Num.decimal digits))
         /\ normalizeNumericId (JNum (NInt (Z.of_N (Num.decimal digits))))
            = Some (Fin (Num.decimal digits)))
  /\ normalizeCategory (JStr " FORM ") = "form"
  /\ normalizeNumericId (JStr "5") = normalizeNumericId (JNum (NInt 5))
  /\ normalizeNumericId (JNum (NInt 0)) = Some (Fin 0).
Proof.
  assert (forall pre s post (l : list string),
             blank pre = true -> blank post = true ->
             In (Str.toLowerCase s) l ->
             (forall x, In x l -> Str.trim x = x) ->
             toSafeLower (JStr (pre ++ s ++ post)) = Str.toLowerCase s) as Hlow.
  { intros pre s post l Hpre Hpost Hin Hl. unfold toSafeLower, toSafeString.
    rewrite (trim_padding _ _ _ Hpre Hpost), <- trim_lower. now apply Hl. }
  split; [|split; [|split; [|repeat split]]].
  - intros pre s post Hpre Hpost Hin. unfold normalizeLevel.
    rewrite (Hlow pre s post LEVELS); try assumption.
    + now rewrite (proj2 (mem_In _ _) Hin).
    + intros x Hx. cbn in Hx.
      destruct Hx as [<-|[<-|[<-|[<-|[<-|[]]]]]]; reflexivity.
  - intros pre s post Hpre Hpost Hin. unfold normalizeCategory.
    rewrite (Hlow pre s post CATEGORY); try assumption.
    + now rewrite (proj2 (mem_In _ _) Hin).
    + intros x Hx. cbn in Hx. destruct Hx as [<-|[<-|[]]]; reflexivity.
  - intros pre digits post Hpre Hpost Hd Hv. split.
    + unfold normalizeNumericId, toSafeString.
      rewrite (trim_padding _ _ _ Hpre Hpost).
      unfold Num.all_digits in Hd. apply andb_true_iff in Hd as [Hne Hall].
      rewrite (trim_digits _ Hall). unfold Num.all_digits.
      rewrite Hne, Hall. cbn [andb].
      now rewrite (Number_of_digits_exact _ Hv).
    + unfold normalizeNumericId. rewrite N2Z.id.
      destruct (Z.leb_spec 0 (Z.of_N (Num.decimal digits))); [reflexivity|lia].
Qed.

Lemma inputs_are_normalized_witness :
  normalizeNumericId (JStr (" " ++ "0042" ++ "  "))
  = Some (Fin (Num.decimal "0042"))
  /\ normalizeNumericId (JNum (NInt (Z.of_N (Num.decimal "0042"))))
     = Some (Fin (Num.decimal "0042")).
Proof.
  apply (proj1 (proj2 (proj2 inputs_are_normalized))).
  - vm_compute. reflexivity.
  - vm_compute. reflexivity.
  - vm_compute. reflexivity.
  - vm_compute. discriminate.
Defined.

(** C10 fails as stated: the digits of 2^53 + 1 are not treated as that
    integer but as 2^53, the id that the digits of 2^53 give. *)
Lemma long_digit_string_rounded :
  Num.decimal "9007199254740993" = 9007199254740993%N
  /\ normalizeNumericId (JStr "9007199254740993")
     = Some (Fin 9007199254740992)
  /\ normalizeNumericId (JStr "9007199254740993")
     <> Some (Fin (Num.decimal "9007199254740993"))
  /\ normalizeNumericId (JStr "9007199254740993")
     = normalizeNumericId (JStr "9007199254740992").
Proof.
  vm_compute. repeat split. intros [=].
Qed.

(** * Further properties *)

Lemma run_fst A (m : IO A) (g : file) : run m g = fst (m g).
Proof. reflexivity. Qed.

(** ** Fresh ids *)

Lemma max_id_ge (ids : list N) (x : N) : In x ids -> (x <= max_id ids)%N.
Proof.
  unfold max_id. induction ids as [|y ids IH]; cbn [fold_right In]; [tauto|].
  intros [->|H]; [apply N.le_max_l|]. specialize (IH H).
  etransitivity; [exact IH | apply N.le_max_r].
Qed.

Lemma max_id_below (ids : list N) (b : N) :
  (0 < b)%N -> (forall x, In x ids -> (x < b)%N) -> (max_id ids < b)%N.
Proof.
  intros Hb. unfold max_id.
  induction ids as [|y ids IH]; cbn [fold_right In]; [auto|].
  intros H. apply N.max_lub_lt; [apply H; auto | apply IH; auto].
Qed.

Lemma nextId_above (ids : list N) (x : N) :
  (forall y, In y ids -> (y < 2 ^ 53)%N) -> In x ids -> (x < nextId ids)%N.
Proof.
  intros Hb Hx. destruct ids as [|y ids]; [destruct Hx|].
  unfold nextId. remember (y :: ids) as l eqn:El. clear El.
  assert (max_id l < 2 ^ 53)%N as Hm
      by (apply max_id_below; [reflexivity | assumption]).
  rewrite round53_exact.
  - pose proof (max_id_ge _ _ Hx). lia.
  - remember (2 ^ 53)%N as B. lia.
Qed.

(** X1. [nextId] answers 0 for no ids; for ids that are all below 2^53 it
    answers an id above every one of them, so an id that is not among
    them. *)
Theorem nextId_above_all :
  forall ids : list N,
    (forall x, In x ids -> (x < 2 ^ 53)%N) ->
    (forall x, In x ids -> (x < nextId ids)%N) /\ ~ In (nextId ids) ids.
Proof.
  intros ids Hb. split.
  - intros x Hx. now apply nextId_above.
  - intros Hin. pose proof (nextId_above ids _ Hb Hin). lia.
Qed.

Lemma nextId_above_all_witness :
  (forall x, In x [4; 0; 7]%N -> (x < nextId [4; 0; 7]%N)%N)
  /\ ~ In (nextId [4; 0; 7]%N) [4; 0; 7]%N.
Proof.
  apply nextId_above_all.
  intros x [<-|[<-|[<-|[]]]]; reflexivity.
Defined.

Lemma count_up_skips_used (fuel : nat) (used : list N) : forall id k,
  (id <= k)%N -> (k < count_up fuel used id)%N -> In k used.
Proof.
  induction fuel as [|fuel IH]; intros id k Hle Hlt; cbn in Hlt; [lia|].
  destruct (mem_id id used) eqn:E; [|lia].
  destruct (N.eq_dec k id) as [->|Hne].
  - now apply mem_id_In.
  - apply (IH (id + 1)%N); [lia | assumption].
Qed.

(** X2. The loop that renumbers a record in [readStore] stops at the least
    id that is not in use: the id it returns is not used, and every smaller
    id is. *)
Theorem first_unused_least :
  forall used : list N,
    ~ In (first_unused used) used
    /\ forall k, (k < first_unused used)%N -> In k used.
Proof.
  intros used. split.
  - apply first_unused_fresh.
  - intros k Hk. apply (count_up_skips_used (List.length used) used 0%N k);
      [lia | exact Hk].
Qed.

(** ** What [readStore] returns *)

Lemma convert_valid (ids : list idnum) (units : list node) :
  areValidKnowledgeIds ids units = true -> convert_knowledgePoints ids = ids.
Proof.
  induction ids as [|id ids IH]; [reflexivity|].
  cbn [areValidKnowledgeIds forallb]. intros H.
  apply andb_true_iff in H as [Hid Hrest].
  apply has_id_In in Hid as (n & _ & <-).
  unfold convert_knowledgePoints in *.
  cbn [filter_some parsed_id normalizeNumericId].
  rewrite N2Z.id, (IH Hrest).
  destruct (Z.leb_spec 0 (Z.of_N (node_id n))); [reflexivity | lia].
Qed.

Lemma prepare_recipe_normal (units : list node) (r m : recipe) :
  prepare_recipe units r = Some m ->
  normal_recipe units m /\ recipe_id m = recipe_id r.
Proof.
  unfold prepare_recipe, normalizeRecipe;
    cbn [rd_level rd_description rd_procedure in_procedure in_recipe_level
         in_description toSafeString].
  destruct (Str.truthy (normalizeLevel (JStr (recipe_level r)))) eqn:Hl;
    [|discriminate].
  destruct (Str.truthy (Str.trim (recipe_description r))) eqn:Hd;
    [|discriminate].
  destruct (Str.truthy (Str.trim (recipe_procedure r))) eqn:Hp;
    [|discriminate].
  destruct (convert_knowledgePoints (recipe_knowledgePoints r))
    as [|k ks] eqn:Hk; [discriminate|].
  cbn [negb orb List.length Nat.eqb].
  destruct (areValidKnowledgeIds (k :: ks) units) eqn:Hv; [|discriminate].
  cbn [negb]. intros [= <-]. split; [|reflexivity].
  unfold normal_recipe; cbn [recipe_procedure recipe_level recipe_description
                             recipe_knowledgePoints].
  repeat split; try assumption.
  - apply trim_idempotent.
  - now apply normalizeLevel_valid.
  - apply trim_idempotent.
  - discriminate.
Qed.

Lemma prepare_recipe_stored (units : list node) (r : recipe) :
  normal_recipe units r -> prepare_recipe units r = Some r.
Proof.
  destruct r as [i ks p l d]. unfold normal_recipe.
  cbn [recipe_procedure recipe_level recipe_description
       recipe_knowledgePoints].
  intros (Hp & Hpt & Hl & Hd & Hdt & Hne & Hv).
  unfold prepare_recipe, normalizeRecipe;
    cbn [rd_level rd_description rd_procedure in_procedure in_recipe_level
         in_description toSafeString recipe_procedure recipe_level
         recipe_description recipe_knowledgePoints recipe_id].
  rewrite (convert_valid _ _ Hv), Hp, Hd, Hpt, Hdt, Hv,
    (normalizeLevel_stored _ Hl).
  assert (Str.truthy l = true) as ->
      by (cbn in Hl; destruct Hl as [<-|[<-|[<-|[<-|[<-|[]]]]]]; reflexivity).
  destruct ks; [contradiction | reflexivity].
Qed.

Lemma number_recipes_ids (l : list recipe) : forall used,
  NoDup (map recipe_id (number_recipes used l))
  /\ forall x, In x (map recipe_id (number_recipes used l)) -> ~ In x used.
Proof.
  induction l as [|r l IH]; intros used; cbn.
  - split; [constructor | tauto].
  - destruct (IH (assign_id used (recipe_id r) :: used)) as [Hnd Hout].
    split.
    + constructor; [|assumption]. intros Hin. apply (Hout _ Hin). now left.
    + intros x [<-|Hin].
      * apply assign_id_fresh.
      * intros Hu. apply (Hout _ Hin). now right.
Qed.

Lemma number_recipes_normal (units : list node) (l : list recipe) :
  forall used,
    Forall (normal_recipe units) l ->
    Forall (normal_recipe units) (number_recipes used l).
Proof.
  induction l as [|r l IH]; intros used H; cbn; [constructor|].
  inversion H; subst. constructor; [|now apply IH].
  destruct r; assumption.
Qed.

Lemma number_recipes_fixed (l : list recipe) : forall used,
  NoDup (map recipe_id l) ->
  (forall x, In x (map recipe_id l) -> ~ In x used) ->
  number_recipes used l = l.
Proof.
  induction l as [|r l IH]; intros used Hnd Hout; cbn; [reflexivity|].
  cbn in Hnd. inversion Hnd as [|? ? Hn Hnd']; subst.
  rewrite assign_id_free by (apply Hout; now left).
  destruct r as [i ks p lv d]; cbn in *. f_equal.
  apply IH; [assumption|].
  intros x Hx [<-|Hu]; [contradiction|]. apply (Hout x); auto.
Qed.

Lemma load_recipes_normal (parsed : store) :
  Forall (normal_recipe (nodes (load parsed))) (recipes (load parsed))
  /\ NoDup (map recipe_id (recipes (load parsed))).
Proof.
  cbn [load recipes nodes]. split.
  - apply number_recipes_normal, Forall_forall. intros m Hm.
    apply In_filter_some in Hm as (r & _ & Hr).
    now apply prepare_recipe_normal in Hr.
  - apply number_recipes_ids.
Qed.

Lemma load_fixed (ns : list node) (rs : list recipe) :
  Forall normal_node ns -> NoDup (map node_id ns) ->
  Forall (normal_recipe ns) rs -> NoDup (map recipe_id rs) ->
  load (mkStore ns rs) = mkStore ns rs.
Proof.
  intros Hn Hnd Hr Hrd.
  pose proof (load_nodes_fixed ns rs Hn Hnd) as En.
  unfold load in *. cbn [nodes recipes] in *. rewrite En. f_equal.
  rewrite filter_some_fixed.
  - apply number_recipes_fixed; [assumption | tauto].
  - intros r Hin. apply prepare_recipe_stored.
    now apply (proj1 (Forall_forall _ _) Hr).
Qed.

Lemma view_normal (f : file) :
  Forall normal_node (nodes (run readStore f))
  /\ NoDup (map node_id (nodes (run readStore f)))
  /\ Forall (normal_recipe (nodes (run readStore f)))
            (recipes (run readStore f))
  /\ NoDup (map recipe_id (recipes (run readStore f))).
Proof.
  rewrite readStore_run. destruct f as [parsed|].
  - destruct (load_nodes_normal parsed), (load_recipes_normal parsed). auto.
  - cbn. repeat split; constructor.
Qed.





(** ** Lists with distinct ids *)

Lemma find_by_key {A} (key : A -> N) (l : list A) (u : A) (id : idnum) :
  NoDup (map key l) -> In u l -> Fin (key u) = id ->
  find (fun a => idnum_eqb (Fin (key a)) id) l = Some u.
Proof.
  induction l as [|x l IH]; cbn [find In map]; [tauto|].
  intros Hnd [->|Hin] Hid.
  - rewrite (proj2 (idnum_eqb_eq _ _) Hid). reflexivity.
  - inversion Hnd as [|? ? Hx Hnd']; subst.
    destruct (idnum_eqb (Fin (key x)) (Fin (key u))) eqn:E.
    + apply idnum_eqb_eq in E. injection E as E.
      exfalso. apply Hx. rewrite E. now apply in_map.
    + now apply IH.
Qed.

Lemma find_none_by_key {A} (key : A -> N) (l : list A) (id : idnum) :
  (forall a, In a l -> Fin (key a) <> id) ->
  find (fun a => idnum_eqb (Fin (key a)) id) l = None.
Proof.
  intros H. destruct (find _ l) as [a|] eqn:E; [|reflexivity].
  apply find_some in E as [Hin Ha]. apply idnum_eqb_eq in Ha.
  now destruct (H a Hin).
Qed.

Lemma set_at_map {A B} (g : A -> B) (l : list A) (i : nat) (a x : A) :
  nth_error l i = Some a -> g x = g a -> map g (set_at l i x) = map g l.
Proof.
  revert i. induction l as [|y l IH]; intros [|i]; cbn; try discriminate.
  - intros [= ->] ->. reflexivity.
  - intros H E. f_equal. now apply IH.
Qed.

Lemma set_at_Forall {A} (P : A -> Prop) (l : list A) (i : nat) (x : A) :
  Forall P l -> P x -> Forall P (set_at l i x).
Proof.
  revert i. induction l as [|y l IH]; intros i H Hx; [destruct i; constructor|].
  inversion H; subst. destruct i; cbn; constructor; auto.
Qed.


Lemma set_at_other {A} (l : list A) (i : nat) (x b : A) :
  In b l -> nth_error l i <> Some b -> In b (set_at l i x).
Proof.
  revert i. induction l as [|y l IH]; intros i; cbn [In]; [tauto|].
  destruct i; cbn.
  - intros [->|H] Hne; [congruence | now right].
  - intros [->|H] Hne; [now left | right; now apply IH].
Qed.



(** ** Creating a knowledge unit *)


Lemma post_nodes_run (req : node_input) (f : file) :
  post_nodes req f
  = let normalized := normalizeNode req in
    if negb (Str.truthy (nd_content normalized))
       || negb (Str.truthy (nd_level normalized))
       || negb (Str.truthy (nd_category normalized))
    then (node_fields_required, f)
    else
      let s := run readStore f in
      let record := node_of (nextId (map node_id (nodes s))) normalized in
      (mkResponse 201 (NodeJson record),
       Some (mkStore (record :: nodes s) (recipes s))).
Proof.
  unfold post_nodes, readNodeList, writeNodeList, bind, ret. cbv zeta.
  destruct (_ || _ || _); [reflexivity|].
  rewrite (readStore_pair f). cbv zeta.
  rewrite (readStore_pair (exec readStore f)).
  destruct (readStore_again f) as [-> ->]. reflexivity.
Qed.




(** ** Updating and deleting a knowledge unit *)


Lemma same_id_same_node (l : list node) (a b : node) :
  NoDup (map node_id l) -> In a l -> In b l -> node_id a = node_id b -> a = b.
Proof.
  induction l as [|x l IH]; cbn; [tauto|]. intros Hnd Ha Hb E.
  inversion Hnd as [|? ? Hx Hnd']; subst.
  destruct Ha as [->|Ha], Hb as [->|Hb]; auto.
  - exfalso. apply Hx. rewrite E. now apply in_map.
  - exfalso. apply Hx. rewrite <- E. now apply in_map.
Qed.

Lemma patch_nodes_cases (param : string) (req : node_input) (f : file) :
  patch_nodes param req f = (bad_id, f)
  \/ patch_nodes param req f = (not_found, exec readStore f)
  \/ exists id index current,
      parseParamId (JStr param) = Some id
      /\ findIndex (is_node id) (nodes (run readStore f)) = Some index
      /\ nth_error (nodes (run readStore f)) index = Some current
      /\ Fin (node_id current) = id.
Proof.
  unfold patch_nodes, readNodeList, bind, ret.
  destruct (parseParamId (JStr param)) as [id|] eqn:Hp; [|now left].
  rewrite (readStore_pair f). cbv zeta.
  destruct (findIndex (is_node id) (nodes (run readStore f)))
    as [index|] eqn:Hi; [|right; now left].
  destruct (findIndex_found _ _ _ Hi) as (current & Hc & Hid).
  right; right. exists id, index, current. repeat split; try assumption.
  unfold is_node in Hid. now apply idnum_eqb_eq.
Qed.








Lemma delete_nodes_unfound (param : string) (id : idnum) (f : file) :
  parseParamId (JStr param) = Some id ->
  existsb (is_node id) (nodes (run readStore f)) = false ->
  delete_nodes param f = (not_found, exec readStore f).
Proof.
  intros Hp Hex. unfold delete_nodes, readNodeList, bind, ret.
  rewrite Hp, (readStore_pair f). cbv zeta. now rewrite Hex.
Qed.



(** ** Creating, updating and deleting a composition *)

Lemma toSafeString_trimmed (v : jsval) :
  Str.trim (toSafeString v) = toSafeString v.
Proof. destruct v; try reflexivity. apply trim_idempotent. Qed.

Lemma checked_recipe_normal (units : list node) (req : recipe_input) (id : N) :
  check units (normalizeRecipe req) = None ->
  normal_recipe units (recipe_of id (normalizeRecipe req)).
Proof.
  unfold check, missing_fields, normal_recipe, recipe_of;
    cbn [recipe_procedure recipe_level recipe_description
         recipe_knowledgePoints].
  destruct (rd_knowledgePoints (normalizeRecipe req)) as [|k ks] eqn:Ek;
    [discriminate|].
  cbn [List.length Nat.eqb orb].
  destruct (Str.truthy (rd_procedure (normalizeRecipe req))) eqn:Hp;
    [|discriminate].
  destruct (Str.truthy (rd_level (normalizeRecipe req))) eqn:Hl;
    [|discriminate].
  destruct (Str.truthy (rd_description (normalizeRecipe req))) eqn:Hd;
    [|discriminate].
  cbn [negb orb].
  destruct (areValidKnowledgeIds (k :: ks) units) eqn:Hv; [|discriminate].
  intros _. repeat split; try assumption; try discriminate.
  - apply toSafeString_trimmed.
  - now apply normalizeLevel_valid.
  - apply toSafeString_trimmed.
Qed.

Lemma get_recipe_run (param : string) (id : idnum) (f : file) :
  parseParamId (JStr param) = Some id ->
  run (get_recipe param) f
  = match find (is_recipe id) (recipes (run readStore f)) with
    | None => not_found
    | Some item => mkResponse 200 (RecipeJson item)
    end.
Proof.
  intros Hp. unfold run at 1, get_recipe, readRecipeList, bind, ret.
  rewrite Hp, (readStore_pair f). cbv zeta.
  now destruct (find _ _).
Qed.



(** X11. When PATCH /api/recipes/:id answers 200, the composition found
    under the id is replaced in its place by the one with the same id and
    the merged, normalized fields; the store read afterwards has that list
    and the units read before; GET /api/recipes/:id answers the updated
    composition and every composition with another id is still there. *)
Theorem patch_recipes_then_get :
  forall (f : file) (param : string) (req : recipe_input),
    status (run (patch_recipes param req) f) = 200%N ->
    exists index current updated,
      parseParamId (JStr param) = Some (Fin (recipe_id current))
      /\ nth_error (recipes (run readStore f)) index = Some current
      /\ updated = recipe_of (recipe_id current)
                             (normalizeRecipe (recipe_patch req current))
      /\ run (patch_recipes param req) f = mkResponse 200 (RecipeJson updated)
      /\ run readStore (exec (patch_recipes param req) f)
         = mkStore (nodes (run readStore f))
                   (set_at (recipes (run readStore f)) index updated)
      /\ run (get_recipe param) (exec (patch_recipes param req) f)
         = mkResponse 200 (RecipeJson updated)
      /\ (forall r, In r (recipes (run readStore f)) ->
                    recipe_id r <> recipe_id current ->
                    In r (recipes (run readStore
                                     (exec (patch_recipes param req) f)))).
Proof.
  intros f param req Hst.
  pose proof (@run_fst) as Erun.
  rewrite (Erun _ (patch_recipes param req)) in *. unfold exec.
  destruct (patch_recipes_cases param req f)
    as [H|[H|(id & index & current & Hp & Hi & Hc)]];
    try (rewrite H in Hst; discriminate).
  destruct (findIndex_found _ _ _ Hi) as (found & Hf & Hid).
  rewrite Hc in Hf. injection Hf as <-.
  unfold is_recipe in Hid. apply idnum_eqb_eq in Hid. subst id.
  rewrite (patch_recipes_check _ _ _ _ _ _ Hp Hi Hc) in *. cbv zeta in *.
  destruct (check _ _) as [resp|] eqn:Ec.
  { apply check_rejects in Ec as [_ Es]. cbn [fst] in Hst.
    rewrite Es in Hst. discriminate. }
  cbn [fst snd] in *.
  destruct (view_normal f) as (Hn & Hnd & Hr & Hrd).
  set (updated := recipe_of (recipe_id current)
                            (normalizeRecipe (recipe_patch req current))) in *.
  pose proof (set_at_map recipe_id _ _ current updated Hc eq_refl) as Emap.
  assert (run readStore
              (Some (mkStore (nodes (run readStore f))
                             (set_at (recipes (run readStore f)) index
                                     updated)))
          = mkStore (nodes (run readStore f))
                    (set_at (recipes (run readStore f)) index updated))
    as Eread.
  { rewrite readStore_run. apply load_fixed; try assumption.
    - apply set_at_Forall; [assumption|]. now apply checked_recipe_normal.
    - now rewrite Emap. }
  exists index, current, updated. repeat split; try assumption.
  - rewrite (get_recipe_run _ _ _ Hp), Eread. cbn [recipes].
    unfold is_recipe. rewrite (find_by_key recipe_id _ updated).
    + reflexivity.
    + now rewrite Emap.
    + eapply set_at_In; eassumption.
    + reflexivity.
  - intros r Hin Hne. rewrite Eread. cbn [recipes].
    apply set_at_other; [assumption|]. intros E. rewrite Hc in E.
    injection E as ->. now apply Hne.
Qed.

Lemma patch_recipes_then_get_witness :
  exists index current updated,
    parseParamId (JStr "0") = Some (Fin (recipe_id current))
    /\ nth_error (recipes (run readStore Sample.one_recipe)) index
       = Some current
    /\ updated = recipe_of (recipe_id current)
                           (normalizeRecipe
                              (recipe_patch More.new_procedure current))
    /\ run (patch_recipes "0" More.new_procedure) Sample.one_recipe
       = mkResponse 200 (RecipeJson updated)
    /\ run readStore (exec (patch_recipes "0" More.new_procedure)
                           Sample.one_recipe)
       = mkStore (nodes (run readStore Sample.one_recipe))
                 (set_at (recipes (run readStore Sample.one_recipe)) index
                         updated)
    /\ run (get_recipe "0")
           (exec (patch_recipes "0" More.new_procedure) Sample.one_recipe)
       = mkResponse 200 (RecipeJson updated)
    /\ (forall r, In r (recipes (run readStore Sample.one_recipe)) ->
                  recipe_id r <> recipe_id current ->
                  In r (recipes (run readStore
                                   (exec (patch_recipes "0" More.new_procedure)
                                         Sample.one_recipe)))).
Proof.
  apply patch_recipes_then_get. vm_compute. reflexivity.
Defined.

Lemma delete_recipes_run (param : string) (id : idnum) (f : file) :
  parseParamId (JStr param) = Some id ->
  delete_recipes param f
  = if negb (existsb (is_recipe id) (recipes (run readStore f)))
    then (not_found, exec readStore f)
    else (mkResponse 204 NoBody,
          Some (mkStore (nodes (run readStore f))
                        (filter (fun entry => negb (is_recipe id entry))
                                (recipes (run readStore f))))).
Proof.
  intros Hp. unfold delete_recipes, readRecipeList, writeRecipeList, bind, ret.
  rewrite Hp, (readStore_pair f). cbv zeta.
  destruct (negb _); [reflexivity|].
  rewrite (readStore_pair (exec readStore f)).
  destruct (readStore_again f) as [-> ->]. reflexivity.
Qed.

(** X12. DELETE /api/recipes/:id on a composition that exists answers 204;
    the store read afterwards has the units read before and the other
    compositions, and GET /api/recipes/:id for the id answers "Record not
    found". On an id of no composition it answers "Record not found" and
    the file is only read. *)
Theorem delete_recipes_then_get :
  forall (f : file) (param : string) (id : idnum),
    parseParamId (JStr param) = Some id ->
    (existsb (is_recipe id) (recipes (run readStore f)) = true ->
     run (delete_recipes param) f = mkResponse 204 NoBody
     /\ run readStore (exec (delete_recipes param) f)
        = mkStore (nodes (run readStore f))
                  (filter (fun entry => negb (is_recipe id entry))
                          (recipes (run readStore f)))
     /\ run (get_recipe param) (exec (delete_recipes param) f) = not_found)
    /\ (existsb (is_recipe id) (recipes (run readStore f)) = false ->
        delete_recipes param f = (not_found, exec readStore f)).
Proof.
  intros f param id Hp. split; intros Hex.
  - pose proof (@run_fst) as Erun.
    rewrite (Erun _ (delete_recipes param)). unfold exec.
    rewrite (delete_recipes_run _ _ _ Hp), Hex. cbn [negb fst snd].
    destruct (view_normal f) as (Hn & Hnd & Hr & Hrd).
    assert (run readStore
                (Some (mkStore (nodes (run readStore f))
                               (filter (fun entry => negb (is_recipe id entry))
                                       (recipes (run readStore f)))))
            = mkStore (nodes (run readStore f))
                      (filter (fun entry => negb (is_recipe id entry))
                              (recipes (run readStore f)))) as Eread.
    { rewrite readStore_run. apply load_fixed; try assumption.
      - apply Forall_forall. intros r Hin. apply filter_In in Hin as [Hin _].
        now apply (proj1 (Forall_forall _ _) Hr).
      - now apply NoDup_map_filter. }
    repeat split.
    + exact Eread.
    + rewrite (get_recipe_run _ _ _ Hp), Eread. cbn [recipes].
      unfold is_recipe at 1.
      rewrite (find_none_by_key recipe_id); [reflexivity|].
      intros r Hin E. apply filter_In in Hin as [_ Hin].
      unfold is_recipe in Hin.
      rewrite (proj2 (idnum_eqb_eq _ _) E) in Hin. discriminate.
  - rewrite (delete_recipes_run _ _ _ Hp), Hex. reflexivity.
Qed.

Lemma delete_recipes_then_get_witness :
  (existsb (is_recipe (Fin 0)) (recipes (run readStore Sample.one_recipe))
   = true ->
   run (delete_recipes "0") Sample.one_recipe = mkResponse 204 NoBody
   /\ run readStore (exec (delete_recipes "0") Sample.one_recipe)
      = mkStore (nodes (run readStore Sample.one_recipe))
                (filter (fun entry => negb (is_recipe (Fin 0) entry))
                        (recipes (run readStore Sample.one_recipe)))
   /\ run (get_recipe "0") (exec (delete_recipes "0") Sample.one_recipe)
      = not_found)
  /\ (existsb (is_recipe (Fin 0)) (recipes (run readStore Sample.one_recipe))
      = false ->
      delete_recipes "0" Sample.one_recipe
      = (not_found, exec readStore Sample.one_recipe)).
Proof.
  apply delete_recipes_then_get. vm_compute. reflexivity.
Defined.

(** ** Listing knowledge units with filters *)

Lemma prefix_app (k s : string) :
  String.prefix k s = true <-> exists b, s = k ++ b.
Proof.
  revert s. induction k as [|c k IH]; intros [|d s]; cbn.
  - split; [intros _; now exists "" | intros _; reflexivity].
  - split; [intros _; now exists (String d s) | intros _; reflexivity].
  - split; [discriminate | intros (b & [=])].
  - destruct (Ascii.ascii_dec c d) as [->|Hne].
    + rewrite IH. split; intros (b & E); exists b; congruence.
    + split; [discriminate | intros (b & [= E _]); congruence].
Qed.

Lemma includes_substring (s k : string) :
  includes s k = true <-> exists a b, s = a ++ k ++ b.
Proof.
  induction s as [|c s IH]; cbn [includes].
  - destruct (String.prefix k "") eqn:E.
    + split; [intros _|intros _; reflexivity].
      apply prefix_app in E as (b & E). now exists "", b.
    + split; [discriminate|]. intros (a & b & H).
      destruct a; cbn in H.
      * assert (String.prefix k "" = true) by (apply prefix_app; eauto).
        congruence.
      * discriminate.
  - destruct (String.prefix k (String c s)) eqn:E.
    + split; [intros _|intros _; reflexivity].
      apply prefix_app in E as (b & E). now exists "", b.
    + rewrite IH. split.
      * intros (a & b & ->). now exists (String c a), b.
      * intros (a & b & H). destruct a as [|d a]; cbn in H.
        -- assert (String.prefix k (String c s) = true)
             by (apply prefix_app; eauto).
           congruence.
        -- injection H as _ ->. eauto.
Qed.

Lemma get_nodes_run (query_level query_q : jsval) (f : file) :
  run (get_nodes query_level query_q) f
  = filter (fun n => nodeMatchesFilters n (normalizeLevel query_level)
                                        (toSafeLower query_q))
           (nodes (run readStore f)).
Proof.
  unfold run at 1, get_nodes, readNodeList, bind, ret.
  now rewrite (readStore_pair f).
Qed.

(** X13. GET /api/nodes answers exactly the units read that pass both
    filters: when the level of the query is a level of the enum, the units
    of that level, and when the query text is not blank, the units whose
    lower-cased content contains the trimmed, lower-cased text. A level
    outside the enum and a blank text filter nothing. *)
Theorem get_nodes_filters :
  forall (f : file) (query_level query_q : jsval) (n : node),
    In n (run (get_nodes query_level query_q) f)
    <-> In n (nodes (run readStore f))
        /\ (In (toSafeLower query_level) LEVELS ->
            node_level n = toSafeLower query_level)
        /\ (toSafeLower query_q <> "" ->
            exists a b,
              Str.toLowerCase (node_content n)
              = a ++ toSafeLower query_q ++ b).
Proof.
  intros f ql qq n. rewrite get_nodes_run, filter_In.
  unfold nodeMatchesFilters, normalizeLevel. cbn [andb].
  rewrite andb_true_r.
  assert ((if Str.truthy (toSafeLower qq)
           then includes (Str.toLowerCase (node_content n)) (toSafeLower qq)
           else true) = true
          <-> (toSafeLower qq <> "" ->
               exists a b, Str.toLowerCase (node_content n)
                           = a ++ toSafeLower qq ++ b)) as Hk.
  { destruct (Str.truthy (toSafeLower qq)) eqn:E.
    - rewrite includes_substring. apply truthy_ne in E. tauto.
    - split; [|intros _; reflexivity]. intros _ H. apply truthy_ne in H.
      congruence. }
  destruct (Str.mem (toSafeLower ql) LEVELS) eqn:Em.
  - pose proof (proj1 (mem_In _ _) Em) as Hin.
    assert (Str.truthy (toSafeLower ql) = true) as ->
        by (cbn in Hin; destruct Hin as [<-|[<-|[<-|[<-|[<-|[]]]]]];
            reflexivity).
    rewrite andb_true_iff, Hk, String.eqb_eq. tauto.
  - cbn [Str.truthy String.eqb negb andb]. rewrite Hk.
    assert (~ In (toSafeLower ql) LEVELS) as Hout
        by (intros H; apply mem_In in H; congruence).
    tauto.
Qed.

Lemma lower_char_idempotent (c : ascii) :
  Str.lower_char (Str.lower_char c) = Str.lower_char c.
Proof. destruct c as [[] [] [] [] [] [] [] []]; reflexivity. Qed.

Lemma toLowerCase_idempotent (s : string) :
  Str.toLowerCase (Str.toLowerCase s) = Str.toLowerCase s.
Proof.
  induction s as [|c s IH]; cbn; [reflexivity|].
  now rewrite lower_char_idempotent, IH.
Qed.

Lemma toSafeLower_padded (pre s s' post : string) :
  blank pre = true -> blank post = true ->
  Str.toLowerCase s = Str.toLowerCase s' ->
  toSafeLower (JStr (pre ++ s ++ post)) = toSafeLower (JStr s').
Proof.
  intros Hpre Hpost E. unfold toSafeLower, toSafeString.
  now rewrite (trim_padding _ _ _ Hpre Hpost), <- !trim_lower, E.
Qed.

(** X14. The filters of GET /api/nodes do not depend on letter case or on
    white space around the values: two queries whose levels and texts are
    equal after lower-casing, one of them padded with white space, get the
    same answer. *)
Theorem get_nodes_query_insensitive :
  forall (f : file) (pre post pre' post' l l' q q' : string),
    blank pre = true -> blank post = true ->
    blank pre' = true -> blank post' = true ->
    Str.toLowerCase l = Str.toLowerCase l' ->
    Str.toLowerCase q = Str.toLowerCase q' ->
    run (get_nodes (JStr (pre ++ l ++ post)) (JStr (pre' ++ q ++ post'))) f
    = run (get_nodes (JStr l') (JStr q')) f.
Proof.
  intros f pre post pre' post' l l' q q' H1 H2 H3 H4 El Eq.
  rewrite !get_nodes_run. unfold normalizeLevel.
  now rewrite (toSafeLower_padded pre l l' post H1 H2 El),
    (toSafeLower_padded pre' q q' post' H3 H4 Eq).
Qed.

Lemma get_nodes_query_insensitive_witness :
  run (get_nodes (JStr (" " ++ "SINGLE" ++ "  ")) (JStr ("" ++ "Chorus" ++ " ")))
      Sample.one_unit
  = run (get_nodes (JStr "single") (JStr "chorus")) Sample.one_unit.
Proof.
  apply get_nodes_query_insensitive; vm_compute; reflexivity.
Defined.

(** ** Gists *)

Lemma remove_spaces_clean (s : string) :
  Str.all_chars (fun c => negb (Str.is_space c)) (remove_spaces s) = true.
Proof.
  induction s as [|c s IH]; cbn; [reflexivity|].
  destruct (Str.is_space c) eqn:E; cbn; [exact IH | now rewrite E, IH].
Qed.

Lemma slice_to_clean (p : ascii -> bool) (n : nat) (s : string) :
  Str.all_chars p s = true -> Str.all_chars p (slice_to n s) = true.
Proof.
  revert s. induction n as [|n IH]; intros [|c s]; cbn; try reflexivity.
  intros H. apply andb_true_iff in H as [-> H]. now apply IH.
Qed.

Lemma slice_to_length (n : nat) (s : string) :
  (String.length (slice_to n s) <= n)%nat.
Proof.
  revert s. induction n as [|n IH]; intros [|c s]; cbn; try lia.
  specialize (IH s). lia.
Qed.

Lemma remove_spaces_of_clean (s : string) :
  Str.all_chars (fun c => negb (Str.is_space c)) s = true ->
  remove_spaces s = s.
Proof.
  induction s as [|c s IH]; cbn; [reflexivity|].
  intros H. apply andb_true_iff in H as [Hc H].
  apply negb_true_iff in Hc. now rewrite Hc, IH.
Qed.

Lemma trimEnd_of_clean (s : string) :
  Str.all_chars (fun c => negb (Str.is_space c)) s = true ->
  Str.trimEnd s = s.
Proof.
  induction s as [|c s IH]; cbn; [reflexivity|].
  intros H. apply andb_true_iff in H as [Hc H].
  apply negb_true_iff in Hc. rewrite (IH H), Hc. now destruct s.
Qed.

Lemma trim_of_clean (s : string) :
  Str.all_chars (fun c => negb (Str.is_space c)) s = true ->
  Str.trim s = s.
Proof.
  intros H. unfold Str.trim. rewrite trimStart_of_clean.
  - now apply trimEnd_of_clean.
  - destruct s as [|c s]; cbn; [exact I|]. cbn in H.
    apply andb_true_iff in H as [Hc _]. now apply negb_true_iff.
Qed.

Lemma toGist_clean (text : jsval) (maxLength : nat) :
  Str.all_chars (fun c => negb (Str.is_space c)) (toGist text maxLength)
  = true.
Proof.
  unfold toGist. destruct (negb _); [reflexivity|].
  destruct (_ <? _)%nat.
  - apply slice_to_clean, remove_spaces_clean.
  - apply remove_spaces_clean.
Qed.

Lemma toGist_length (text : jsval) (maxLength : nat) :
  (String.length (toGist text maxLength) <= maxLength)%nat.
Proof.
  unfold toGist. destruct (negb _); [cbn; lia|].
  destruct (Nat.ltb_spec maxLength
              (String.length (remove_spaces (toSafeString text)))).
  - apply slice_to_length.
  - assumption.
Qed.

(** X15. [toGist] answers at most [maxLength] characters, none of them
    white space, taken from the front of the text without its white space;
    the gist of a gist is the gist. *)
Theorem toGist_short_and_clean :
  forall (text : jsval) (maxLength : nat),
    (String.length (toGist text maxLength) <= maxLength)%nat
    /\ Str.all_chars (fun c => negb (Str.is_space c)) (toGist text maxLength)
       = true
    /\ String.prefix (toGist text maxLength)
                     (remove_spaces (toSafeString text)) = true
    /\ toGist (JStr (toGist text maxLength)) maxLength
       = toGist text maxLength.
Proof.
  intros text m. split; [apply toGist_length|].
  split; [apply toGist_clean|]. split.
  - apply prefix_app. unfold toGist.
    destruct (negb _); [now exists (remove_spaces (toSafeString text))|].
    destruct (_ <? _)%nat.
    + generalize (remove_spaces (toSafeString text)). clear.
      induction m as [|m IH]; intros [|c s]; cbn; eauto.
      destruct (IH s) as (b & E). exists b. congruence.
    + exists "". generalize (remove_spaces (toSafeString text)). clear.
      induction s as [|c s IH]; cbn; congruence.
  - pose proof (toGist_clean text m) as Hc.
    pose proof (toGist_length text m) as Hl.
    remember (toGist text m) as g eqn:Eg. clear Eg.
    unfold toGist, toSafeString.
    rewrite (trim_of_clean _ Hc), (remove_spaces_of_clean _ Hc).
    destruct g as [|c g]; [reflexivity|]. cbn [Str.truthy String.eqb negb].
    destruct (Nat.ltb_spec m (String.length (String c g))); [lia|reflexivity].
Qed.

(** ** Address prefixes *)

Lemma strip_slashes_app (a : string) :
  strip_slashes (a ++ "/") = strip_slashes a.
Proof.
  induction a as [|c a IH]; cbn; [reflexivity|]. now rewrite IH.
Qed.

Lemma strip_slashes_length (s : string) :
  (String.length (strip_slashes s) <= String.length s)%nat.
Proof.
  induction s as [|c s IH]; cbn; [lia|].
  destruct (strip_slashes s); [destruct (is_slash c)|]; cbn in *; lia.
Qed.

Lemma strip_slashes_idempotent (s : string) :
  strip_slashes (strip_slashes s) = strip_slashes s.
Proof.
  induction s as [|c s IH]; cbn; [reflexivity|].
  destruct (strip_slashes s) as [|d t] eqn:E.
  - destruct (is_slash c) eqn:Hc; cbn; [reflexivity | now rewrite Hc].
  - cbn [strip_slashes] in *. rewrite IH. reflexivity.
Qed.

Lemma app_length_string (a b : string) :
  String.length (a ++ b) = (String.length a + String.length b)%nat.
Proof. induction a as [|c a IH]; cbn; [reflexivity | now rewrite IH]. Qed.

Lemma strip_slashes_no_slash_end (s a : string) :
  strip_slashes s <> a ++ "/".
Proof.
  intros E. pose proof (strip_slashes_idempotent s) as H.
  rewrite E, strip_slashes_app in H.
  pose proof (strip_slashes_length a) as Hl.
  rewrite H, app_length_string in Hl. cbn in Hl. lia.
Qed.

Lemma strip_slashes_keeps_start (s : string) :
  String.prefix "/" s = true ->
  strip_slashes s = "" \/ String.prefix "/" (strip_slashes s) = true.
Proof.
  intros H. apply prefix_app in H as (b & ->).
  cbn [append strip_slashes]. destruct (strip_slashes b) as [|d t].
  - now left.
  - right. apply prefix_app. now exists (String d t).
Qed.

(** X16. [normalizeApiPrefix] and [normalizeBaseUrl] never answer a string
    that ends with a slash; the prefix is empty or begins with a slash, and
    it is "/library-api" when the value is not a string or is blank. *)
Theorem normalized_addresses :
  (forall (value : jsval) (a : string), normalizeApiPrefix value <> a ++ "/")
  /\ (forall value : jsval,
         normalizeApiPrefix value = ""
         \/ String.prefix "/" (normalizeApiPrefix value) = true)
  /\ (forall value : jsval,
         toSafeString value = "" -> normalizeApiPrefix value = "/library-api")
  /\ (forall (PORT : string) (value : jsval) (a : string),
         normalizeBaseUrl PORT value <> a ++ "/").
Proof.
  repeat split.
  - intros value a. apply strip_slashes_no_slash_end.
  - intros value. unfold normalizeApiPrefix.
    destruct (String.prefix "/" _) eqn:E.
    + now apply strip_slashes_keeps_start.
    + apply strip_slashes_keeps_start, prefix_app. eauto.
  - intros value E. unfold normalizeApiPrefix. rewrite E. reflexivity.
  - intros PORT value a. apply strip_slashes_no_slash_end.
Qed.

Lemma normalized_addresses_witness :
  normalizeApiPrefix JNull = "/library-api".
Proof.
  apply (proj1 (proj2 (proj2 normalized_addresses))). reflexivity.
Defined.

(** ** The validator's list of unusable ids *)

Lemma nodeMap_get_unique (units : list node) (n : node) :
  NoDup (map node_id units) -> In n units ->
  nodeMap_get units (Fin (node_id n)) = Some n.
Proof.
  intros Hnd Hin.
  destruct (nodeMap_get_has (Fin (node_id n)) units) as (m & Hm).
  { apply has_id_In. eauto. }
  rewrite Hm. f_equal.
  destruct (nodeMap_get_Some _ _ _ Hm) as (Hmin & E). injection E as E.
  now apply (same_id_same_node units).
Qed.

(** X17. Against units with pairwise different ids,
    [findUnavailableKnowledgeIds] lists exactly the ids of the request that
    are the id of a unit whose usable levels do not hold the level; an id
    of no unit is never listed. *)
Theorem unavailable_ids_are_existing_unusable :
  forall (ids : list idnum) (units : list node) (level : string) (id : idnum),
    NoDup (map node_id units) ->
    (In id (findUnavailableKnowledgeIds ids units level)
     <-> In id ids
         /\ exists n, In n units /\ Fin (node_id n) = id
                      /\ ~ In level (getUsableLevelsForNode n)).
Proof.
  intros ids units level id Hnd.
  unfold findUnavailableKnowledgeIds. rewrite filter_In.
  split.
  - intros [Hin H]. split; [assumption|].
    destruct (nodeMap_get units id) as [n|] eqn:E; [|discriminate].
    destruct (nodeMap_get_Some _ _ _ E) as (Hn & Hid).
    exists n. repeat split; try assumption.
    intros Hl. apply mem_In in Hl. rewrite Hl in H. discriminate.
  - intros [Hin (n & Hn & <- & Hl)]. split; [assumption|].
    rewrite (nodeMap_get_unique _ _ Hnd Hn).
    destruct (Str.mem level (getUsableLevelsForNode n)) eqn:E; [|reflexivity].
    apply mem_In in E. contradiction.
Qed.

Lemma unavailable_ids_are_existing_unusable_witness :
  In (Fin 0)
     (findUnavailableKnowledgeIds [Fin 9; Fin 0]
        [mkNode 0 "the chorus answers the verse" "single" "form"] "segment")
  <-> In (Fin 0) [Fin 9; Fin 0]
      /\ exists n,
          In n [mkNode 0 "the chorus answers the verse" "single" "form"]
          /\ Fin (node_id n) = Fin 0
          /\ ~ In "segment" (getUsableLevelsForNode n).
Proof.
  apply unavailable_ids_are_existing_unusable.
  simpl. repeat constructor. simpl. tauto.
Defined.

(** ** Levels and categories outside the enums *)

Lemma indexOf_absent (x : string) (l : list string) :
  ~ In x l -> indexOf x l = (-1)%Z.
Proof.
  induction l as [|y l IH]; cbn [indexOf In]; [reflexivity|].
  intros H. destruct (String.eqb_spec x y) as [->|_]; [tauto|].
  rewrite IH by tauto. reflexivity.
Qed.

Lemma indexOf_present (x : string) (l : list string) :
  In x l -> (0 <= indexOf x l)%Z.
Proof.
  induction l as [|y l IH]; cbn [indexOf In]; [tauto|].
  intros H. destruct (String.eqb_spec x y) as [->|Hne]; [lia|].
  assert (0 <= indexOf x l)%Z as Hi
      by (apply IH; destruct H; [congruence | assumption]).
  destruct (Z.ltb_spec (indexOf x l) 0); lia.
Qed.

(** X18. Outside the enums the two rules part: a node whose level is not in
    [LEVEL_ORDER] has no usable level at all, and one whose category is not
    in the enum has its own level only, while [getRelativeCategory] answers
    the node's category at the node's own level in both cases and the
    empty answer elsewhere. *)
Theorem outside_the_enums :
  forall n : node,
    (~ In (node_level n) LEVEL_ORDER ->
     getUsableLevelsForNode n = []
     /\ forall targetLevel,
          getRelativeCategory n targetLevel
          = if (targetLevel =? node_level n)%string then node_category n
            else "")
    /\ (In (node_level n) LEVEL_ORDER -> ~ In (node_category n) CATEGORY ->
        getUsableLevelsForNode n = [node_level n]
        /\ forall targetLevel,
             getRelativeCategory n targetLevel
             = if (targetLevel =? node_level n)%string then node_category n
               else "").
Proof.
  intros n. split.
  - intros H. pose proof (indexOf_absent _ _ H) as E.
    unfold getUsableLevelsForNode, getRelativeCategory. rewrite E.
    split; [reflexivity|]. intros T. reflexivity.
  - intros Hl Hc. pose proof (indexOf_present _ _ Hl) as Hi.
    assert ((indexOf (node_level n) LEVEL_ORDER =? -1)%Z = false) as E
        by (apply Z.eqb_neq; lia).
    assert ((node_category n =? "material")%string = false) as Em.
    { apply String.eqb_neq. intros Eq. apply Hc. rewrite Eq. cbn. auto. }
    assert ((node_category n =? "form")%string = false) as Ef.
    { apply String.eqb_neq. intros Eq. apply Hc. rewrite Eq. cbn. auto. }
    unfold getUsableLevelsForNode, getRelativeCategory.
    rewrite E, Em, Ef. split; reflexivity.
Qed.

Lemma outside_the_enums_witness :
  getUsableLevelsForNode More.stray = []
  /\ forall targetLevel,
       getRelativeCategory More.stray targetLevel
       = if (targetLevel =? node_level More.stray)%string
         then node_category More.stray else "".
Proof.
  apply (proj1 (outside_the_enums More.stray)).
  simpl. intros [H|[H|[H|[H|[H|[]]]]]]; discriminate.
Defined.

(** ** Ids in the address *)

Lemma malformed_param (param : string) :
  Num.all_digits (Str.trim param) = false -> parseParamId (JStr param) = None.
Proof.
  intros H. unfold parseParamId, normalizeNumericId, toSafeString.
  now rewrite H.
Qed.

(** X19. An id in the address that is not a string of digits, once
    trimmed, is answered with "id must be a non-negative integer" by every
    handler that takes an id, and the data file is not read, created or
    written. *)
Theorem malformed_param_rejected :
  forall (f : file) (param : string) (query : jsval)
         (node_req : node_input) (recipe_req : recipe_input),
    Num.all_digits (Str.trim param) = false ->
    get_node param f = (bad_id, f)
    /\ get_node_relative param query f = (bad_id, f)
    /\ patch_nodes param node_req f = (bad_id, f)
    /\ delete_nodes param f = (bad_id, f)
    /\ get_recipe param f = (bad_id, f)
    /\ patch_recipes param recipe_req f = (bad_id, f)
    /\ delete_recipes param f = (bad_id, f).
Proof.
  intros f param query node_req recipe_req H.
  pose proof (malformed_param _ H) as Hp.
  unfold get_node, get_node_relative, patch_nodes, delete_nodes, get_recipe,
    patch_recipes, delete_recipes.
  rewrite Hp. repeat split.
Qed.

Lemma malformed_param_rejected_witness :
  get_node "1.5" Sample.one_recipe = (bad_id, Sample.one_recipe)
  /\ get_node_relative "1.5" (JStr "album") Sample.one_recipe
     = (bad_id, Sample.one_recipe)
  /\ patch_nodes "1.5" Sample.to_material Sample.one_recipe
     = (bad_id, Sample.one_recipe)
  /\ delete_nodes "1.5" Sample.one_recipe = (bad_id, Sample.one_recipe)
  /\ get_recipe "1.5" Sample.one_recipe = (bad_id, Sample.one_recipe)
  /\ patch_recipes "1.5" Sample.to_segment Sample.one_recipe
     = (bad_id, Sample.one_recipe)
  /\ delete_recipes "1.5" Sample.one_recipe = (bad_id, Sample.one_recipe).
Proof.
  apply malformed_param_rejected. vm_compute. reflexivity.
Defined.

(** ** Lists of knowledge points *)

(** X20. [normalizeKnowledgePoints] keeps a list of non-negative integers
    as it is, in its order and with its repetitions, answers the empty list
    for a value that is not an array, and never answers more ids than the
    array has items. *)
Theorem normalizeKnowledgePoints_of_numbers :
  (forall l : list N,
      normalizeKnowledgePoints
        (JArr (map (fun n => JNum (NInt (Z.of_N n))) l))
      = map Fin l)
  /\ (forall value : jsval,
         (forall items, value <> JArr items) ->
         normalizeKnowledgePoints value = [])
  /\ (forall items : list jsval,
         (List.length (normalizeKnowledgePoints (JArr items))
          <= List.length items)%nat).
Proof.
  assert (forall l : list N,
             keep_ids (map (fun n => JNum (NInt (Z.of_N n))) l) = map Fin l)
    as Hnum.
  { induction l as [|n l IH]; [reflexivity|].
    cbn [map keep_ids normalizeNumericId]. rewrite N2Z.id, IH.
    destruct (Z.leb_spec 0 (Z.of_N n)); [reflexivity | lia]. }
  repeat split.
  - exact Hnum.
  - intros value H. destruct value; try reflexivity. now destruct (H items).
  - intros items. cbn [normalizeKnowledgePoints].
    induction items as [|x items IH]; cbn [keep_ids List.length]; [lia|].
    destruct (normalizeNumericId x); cbn [List.length]; lia.
Qed.

Lemma normalizeKnowledgePoints_of_numbers_witness :
  normalizeKnowledgePoints (JStr "5") = [].
Proof.
  apply (proj1 (proj2 normalizeKnowledgePoints_of_numbers)).
  intros items. discriminate.
Defined.

(** ** Requests that are refused *)

(** X21. A create, update or delete of a unit, or a create or update of a
    composition, that is answered with a status of 400 or more leaves an
    existing data file exactly as it was. *)
Theorem refused_requests_write_nothing :
  forall (s : store) (r : request),
    (400 <= status (run (handle r) (Some s)))%N ->
    exec (handle r) (Some s) = Some s.
Proof.
  intros s r Hst.
  pose proof (@run_fst) as Erun.
  rewrite Erun in Hst. unfold exec.
  destruct r as [req|param req|param|req|param req]; cbn [handle] in *.
  - rewrite post_nodes_run in *. cbv zeta in *.
    destruct (_ || _ || _); [reflexivity|]. cbn in Hst. lia.
  - destruct (patch_nodes_cases param req (Some s))
      as [H|[H|(id & index & current & Hp & Hi & Hc & _)]];
      try (now rewrite H).
    rewrite (patch_nodes_check _ _ _ _ _ _ Hp Hi Hc) in *. cbv zeta in *.
    destruct (_ || _ || _); [reflexivity|]. cbn in Hst. lia.
  - destruct (parseParamId (JStr param)) as [id|] eqn:Hp.
    + destruct (existsb (is_node id) (nodes (run readStore (Some s))))
        eqn:Hex.
      * rewrite (delete_nodes_found _ _ _ Hp Hex) in Hst. cbn in Hst. lia.
      * now rewrite (delete_nodes_unfound _ _ _ Hp Hex).
    + unfold delete_nodes. now rewrite Hp.
  - rewrite post_recipes_check in *. cbv zeta in *.
    destruct (check _ _); [reflexivity|]. cbn in Hst. lia.
  - destruct (patch_recipes_cases param req (Some s))
      as [H|[H|(id & index & current & Hp & Hi & Hc)]];
      try (now rewrite H).
    rewrite (patch_recipes_check _ _ _ _ _ _ Hp Hi Hc) in *. cbv zeta in *.
    destruct (check _ _); [reflexivity|]. cbn in Hst. lia.
Qed.

Lemma refused_requests_write_nothing_witness :
  exec (handle (CreateNode More.rejected_unit))
       (Some (mkStore [More.stray] []))
  = Some (mkStore [More.stray] []).
Proof.
  apply refused_requests_write_nothing. vm_compute. discriminate.
Defined.

(** X22. The handlers of GET requests leave an existing data file exactly
    as it was. *)
Theorem reads_write_nothing :
  forall (s : store) (param : string) (q1 q2 : jsval),
    exec (get_node param) (Some s) = Some s
    /\ exec (get_recipe param) (Some s) = Some s
    /\ exec (get_node_relative param q1) (Some s) = Some s
    /\ exec (get_nodes q1 q2) (Some s) = Some s.
Proof.
  intros s param q1 q2.
  unfold exec, get_node, get_recipe, get_node_relative, get_nodes,
    readNodeList, readRecipeList, bind, ret.
  destruct (parseParamId (JStr param)) as [id|]; cbn [readStore snd fst].
  - repeat split.
    + now destruct (find _ _).
    + now destruct (find _ _).
    + destruct (negb (Str.truthy (normalizeLevel q1))); [reflexivity|].
      cbn [readStore]. destruct (find _ _); [|reflexivity].
      now destruct (negb _).
  - repeat split.
Qed.

(** ** Listing compositions with filters *)

Lemma toLowerCase_app (a b : string) :
  Str.toLowerCase (a ++ b) = Str.toLowerCase a ++ Str.toLowerCase b.
Proof. induction a as [|c a IH]; cbn; [reflexivity | now rewrite IH]. Qed.

Lemma append_assoc (a b c : string) : (a ++ b) ++ c = a ++ b ++ c.
Proof. induction a as [|x a IH]; cbn; [reflexivity | now rewrite IH]. Qed.

Lemma get_recipes_run (id_text : idnum -> string)
      (query_level query_q : jsval) (f : file) :
  run (get_recipes id_text query_level query_q) f
  = filter (fun r => recipeMatchesFilters id_text r
                       (normalizeLevel query_level) (toSafeLower query_q))
           (recipes (run readStore f)).
Proof.
  unfold run at 1, get_recipes, readRecipeList, bind, ret.
  now rewrite (readStore_pair f).
Qed.

Lemma recipe_filter_passes (id_text : idnum -> string) (r : recipe)
      (query_level query_q : jsval) :
  recipeMatchesFilters id_text r (normalizeLevel query_level)
                       (toSafeLower query_q) = true
  <-> (In (toSafeLower query_level) LEVELS ->
       recipe_level r = toSafeLower query_level)
      /\ (toSafeLower query_q <> "" ->
          exists a b,
            Str.toLowerCase
              (recipe_description r ++ " " ++ recipe_procedure r ++ " "
               ++ join_ids id_text (recipe_knowledgePoints r))
            = a ++ toSafeLower query_q ++ b).
Proof.
  unfold recipeMatchesFilters, normalizeLevel.
  set (haystack := Str.toLowerCase _).
  assert ((if Str.truthy (toSafeLower query_q)
           then includes haystack (toSafeLower query_q) else true) = true
          <-> (toSafeLower query_q <> "" ->
               exists a b, haystack = a ++ toSafeLower query_q ++ b)) as Hk.
  { destruct (Str.truthy (toSafeLower query_q)) eqn:E.
    - rewrite includes_substring. apply truthy_ne in E. tauto.
    - split; [|intros _; reflexivity]. intros _ H. apply truthy_ne in H.
      congruence. }
  destruct (Str.mem (toSafeLower query_level) LEVELS) eqn:Em.
  - pose proof (proj1 (mem_In _ _) Em) as Hin.
    assert (Str.truthy (toSafeLower query_level) = true) as ->
        by (cbn in Hin; destruct Hin as [<-|[<-|[<-|[<-|[<-|[]]]]]];
            reflexivity).
    rewrite andb_true_iff, Hk, String.eqb_eq. tauto.
  - cbn [Str.truthy String.eqb negb andb]. rewrite Hk.
    assert (~ In (toSafeLower query_level) LEVELS) as Hout
        by (intros H; apply mem_In in H; congruence).
    tauto.
Qed.

(** X23. GET /api/recipes answers exactly the compositions read that pass
    both filters: when the level of the query is a level of the enum, the
    compositions of that level, and when the query text is not blank, the
    compositions for which the lower-cased text made of the description,
    the procedure and the ids, joined by spaces, contains the trimmed,
    lower-cased query text. *)
Theorem get_recipes_filters :
  forall (id_text : idnum -> string) (f : file) (query_level query_q : jsval)
         (r : recipe),
    In r (run (get_recipes id_text query_level query_q) f)
    <-> In r (recipes (run readStore f))
        /\ (In (toSafeLower query_level) LEVELS ->
            recipe_level r = toSafeLower query_level)
        /\ (toSafeLower query_q <> "" ->
            exists a b,
              Str.toLowerCase
                (recipe_description r ++ " " ++ recipe_procedure r ++ " "
                 ++ join_ids id_text (recipe_knowledgePoints r))
              = a ++ toSafeLower query_q ++ b).
Proof.
  intros id_text f ql qq r.
  rewrite get_recipes_run, filter_In, recipe_filter_passes. tauto.
Qed.

(** X24. Without a level in the query, a composition that is read and whose
    description or procedure, lower-cased, contains the trimmed,
    lower-cased query text is in the answer of GET /api/recipes. *)
Theorem get_recipes_finds_text :
  forall (id_text : idnum -> string) (f : file) (query_q : jsval)
         (r : recipe) (a b : string),
    In r (recipes (run readStore f)) ->
    (Str.toLowerCase (recipe_description r) = a ++ toSafeLower query_q ++ b
     \/ Str.toLowerCase (recipe_procedure r) = a ++ toSafeLower query_q ++ b) ->
    In r (run (get_recipes id_text JUndef query_q) f).
Proof.
  intros id_text f qq r a b Hin H.
  rewrite get_recipes_run, filter_In, recipe_filter_passes.
  split; [assumption|]. split.
  - cbn. intros [E|[E|[E|[E|[E|[]]]]]]; discriminate.
  - intros _. rewrite !toLowerCase_app. destruct H as [-> | ->].
    + exists a.
      exists (b ++ Str.toLowerCase " "
                ++ Str.toLowerCase (recipe_procedure r)
                ++ Str.toLowerCase " "
                ++ Str.toLowerCase
                     (join_ids id_text (recipe_knowledgePoints r))).
      now rewrite !append_assoc.
    + exists (Str.toLowerCase (recipe_description r)
                ++ Str.toLowerCase " " ++ a).
      exists (b ++ Str.toLowerCase " "
                ++ Str.toLowerCase
                     (join_ids id_text (recipe_knowledgePoints r))).
      now rewrite !append_assoc.
Qed.

Lemma get_recipes_finds_text_witness :
  In (mkRecipe 0 [Fin 0] "order the singles" "album" "an arc of answers")
     (run (get_recipes (fun _ => "0") JUndef (JStr " ARC ")) Sample.one_recipe).
Proof.
  apply (get_recipes_finds_text (fun _ => "0") Sample.one_recipe
           (JStr " ARC ")
           (mkRecipe 0 [Fin 0] "order the singles" "album" "an arc of answers")
           "an " " of answers").
  - vm_compute. auto.
  - left. vm_compute. reflexivity.
Defined.
